(** * Market regime risk engine: regime classifier and decision gate

    A shallow embedding of [src/regime_classifier.py] and
    [src/decision_gate.py].  Prices, returns, volatilities and slopes are
    IEEE-754 binary64 numbers (Python [float], numpy [float64]); they are
    modelled by Rocq's primitive floats, so that a missing value is the
    NaN of the format and every comparison with it is [false], exactly as
    in the masks the classifier builds.  Window sizes are Python [int]s,
    modelled by [Z]; pandas takes them as machine integers, and the
    model follows the code for sizes in that range ([machine_int]
    below).  Beyond it the integer conversions of pandas and [float()]
    raise [OverflowError], which the model does not render: the
    statements on the warm-up and on failures carry the range as a
    hypothesis. *)

From Stdlib Require Import ZArith List Bool Lia String Floats.
From Stdlib Require Uint63.
Import ListNotations.

Local Open Scope Z_scope.

(** ** Python exceptions and fallible results *)

Inductive exn : Type :=
| ValueError (msg : string)
| SyntaxError (msg : string)
| NameError (msg : string).

Inductive result (A : Type) : Type :=
| Ok (a : A)
| Raise (e : exn).

Arguments Ok {A} a.
Arguments Raise {A} e.

Definition bind {A B : Type} (r : result A) (k : A -> result B) : result B :=
  match r with
  | Ok a => k a
  | Raise e => Raise e
  end.

Notation "x <- r ;; k" := (bind r (fun x => k))
  (at level 61, r at next level, right associativity).

(** ** Floating-point helpers *)

Definition isnan (x : float) : bool := negb (x =? x)%float.

(** A value a rolling window can aggregate: neither NaN nor infinite
    (pandas turns infinities into NaN before it rolls). *)
Definition isfinite (x : float) : bool := (abs x <? infinity)%float.

(** Python's [float(n)] for an integer [n]: the nearest binary64 number.
    (Python raises [OverflowError] where this gives an infinity, for
    integers of 1024 bits and more; no machine-size integer is one.) *)
Definition float_of_Z (z : Z) : float :=
  SF2Prim (binary_normalize prec emax z 0 false).

(** A finite, strictly positive float: what the spec calls a positive price. *)
Definition positive_price (p : float) : bool :=
  ((0 <? p) && (p <? infinity))%float.

(** ** Series: an index and a column of values of the same length *)

Record Series (I A : Type) : Type := mkSeries
  { index : list I;
    values : list A }.

Arguments mkSeries {I A} index values.
Arguments index {I A} s.
Arguments values {I A} s.

Definition zip_with {A B C : Type} (f : A -> B -> C)
  (l1 : list A) (l2 : list B) : list C :=
  map (fun p => f (fst p) (snd p)) (combine l1 l2).

(** [len(s)] *)
Definition len {I A : Type} (s : Series I A) : Z :=
  Z.of_nat (List.length (values s)).

(** Element-wise unary and binary operations keep the index of the
    (left) operand; every series built inside one call shares the index
    of [close]. *)
Definition smap {I A B : Type} (f : A -> B) (s : Series I A) : Series I B :=
  mkSeries (index s) (map f (values s)).

Definition szip {I A B C : Type} (f : A -> B -> C)
  (s1 : Series I A) (s2 : Series I B) : Series I C :=
  mkSeries (index s1) (zip_with f (values s1) (values s2)).

(** ** The pandas operations the classifier calls *)

Module pd.

(** [Series.shift(periods)]: values move down by [periods] places (up
    for a negative [periods]); vacated places hold NaN. *)
Definition shift_values (periods : Z) (vals : list float) : list float :=
  if 0 <=? periods then
    firstn (List.length vals) (repeat nan (Z.to_nat periods) ++ vals)
  else
    skipn (Z.to_nat (- periods)) vals
      ++ repeat nan (Nat.min (Z.to_nat (- periods)) (List.length vals)).

Definition shift {I : Type} (periods : Z) (s : Series I float)
  : Series I float :=
  mkSeries (index s) (shift_values periods (values s)).

(** [Series.pct_change()]: [s / s.shift(1) - 1].  (Older pandas first
    fills missing prices forward; a series without NaN is unaffected.) *)
Definition pct_change {I : Type} (s : Series I float) : Series I float :=
  szip (fun cur prev => cur / prev - 1)%float s (shift 1 s).

(** [Series.abs()] *)
Definition abs {I : Type} (s : Series I float) : Series I float :=
  smap PrimFloat.abs s.

(** The trailing window of [w] places that ends at place [i]. *)
Definition window_at (w : nat) (vals : list float) (i : nat) : list float :=
  firstn w (skipn (S i - w) vals).

(** One place of [rolling(w).agg()] with the default [min_periods = w]:
    NaN until [w] places are available, NaN when the window holds a
    value that is not finite, NaN for an empty window. *)
Definition rolling_at (w : nat) (agg : list float -> float)
  (vals : list float) (i : nat) : float :=
  if (S i <? w)%nat then nan
  else
    let win := window_at w vals i in
    if (1 <=? w)%nat && forallb isfinite win then agg win else nan.

(** [Series.rolling(window)] rejects a negative window when the roller
    is built. *)
Definition rolling_values (window : Z) (agg : list float -> float)
  (vals : list float) : result (list float) :=
  if window <? 0 then
    Raise (ValueError "window must be an integer 0 or greater")
  else
    Ok (map (rolling_at (Z.to_nat window) agg vals) (seq 0 (List.length vals))).

Definition rolling {I : Type} (window : Z) (agg : list float -> float)
  (s : Series I float) : result (Series I float) :=
  vals <- rolling_values window agg (values s) ;;
  Ok (mkSeries (index s) vals).

(** Sample standard deviation (one delta degree of freedom) of a full
    window.  pandas evaluates the same quantity by an online update that
    carries its sums from one window to the next, so its values can
    differ from these in the last bits, or after a spike.  The general
    statements below hold for every volatility value; the two facts they
    take from this definition, that a window of zeros has deviation zero
    and that a NaN in the window gives NaN, hold of pandas as well. *)
Definition fsum (l : list float) : float :=
  fold_left PrimFloat.add l 0%float.

Definition mean (l : list float) : float :=
  (fsum l / float_of_Z (Z.of_nat (List.length l)))%float.

Definition std (l : list float) : float :=
  let m := mean l in
  PrimFloat.sqrt (fsum (map (fun x => (x - m) * (x - m))%float l)
        / float_of_Z (Z.of_nat (List.length l) - 1))%float.

(** Median of a full window: the middle value of the sorted window, or
    the mean of the two middle values. *)
Fixpoint insert_sorted (x : float) (l : list float) : list float :=
  match l with
  | [] => [x]
  | y :: tl => if (x <=? y)%float then x :: l else y :: insert_sorted x tl
  end.

Definition sort (l : list float) : list float :=
  fold_right insert_sorted [] l.

Definition median (l : list float) : float :=
  let s := sort l in
  let n := List.length l in
  if Nat.even n then
    ((nth (n / 2 - 1) s nan + nth (n / 2) s nan) / 2)%float
  else nth (n / 2) s nan.

End pd.

(** ** src/regime_classifier.py *)

Record RegimeConfig : Type := mkRegimeConfig
  { lookback_vol : Z;
    lookback_trend : Z;
    typical_vol_window : Z;
    vol_mult_high : float;
    slope_threshold : float }.

(** The dataclass defaults. *)
Definition default_config : RegimeConfig :=
  {| lookback_vol := 20;
     lookback_trend := 40;
     typical_vol_window := 100;
     vol_mult_high := 1.5%float;
     slope_threshold := 0%float |}.

Definition UNCERTAIN : string := "UNCERTAIN".
Definition VOLATILE : string := "VOLATILE".
Definition TREND : string := "TREND".
Definition RANGE : string := "RANGE".

Section Classifier.

Context {I : Type}.

(** [close.astype(float).pct_change()] *)
Definition simple_returns (close : Series I float) : Series I float :=
  pd.pct_change close.

(** [returns.rolling(window).std()] *)
Definition rolling_volatility (returns : Series I float) (window : Z)
  : result (Series I float) :=
  pd.rolling window pd.std returns.

(** [(close - close.shift(lookback)) / float(lookback)] *)
Definition simple_slope (close : Series I float) (lookback : Z)
  : Series I float :=
  smap (fun d => d / float_of_Z lookback)%float
       (szip PrimFloat.sub close (pd.shift lookback close)).

Definition min_bars_needed (cfg : RegimeConfig) : Z :=
  Z.max (lookback_trend cfg + 1)
        (typical_vol_window cfg + lookback_vol cfg + 1).

(** The per-point slope threshold: the rolling median of [abs(slope)]
    over 200 places when the configured value is not positive, the
    configured constant otherwise. *)
Definition threshold_series (close slope : Series I float)
  (cfg : RegimeConfig) : result (Series I float) :=
  if (slope_threshold cfg <=? 0)%float then
    pd.rolling 200 pd.median (pd.abs slope)
  else
    Ok (mkSeries (index close)
                 (map (fun _ => slope_threshold cfg) (values close))).

(** [vol > typical_vol * vol_mult_high] *)
Definition volatile_mask (vol typical_vol : Series I float)
  (cfg : RegimeConfig) : Series I bool :=
  szip (fun v t => t <? v)%float vol
       (smap (fun t => t * vol_mult_high cfg)%float typical_vol).

(** [(~volatile_mask) & (slope.abs() > slope_threshold)] *)
Definition trend_mask (volatile : Series I bool)
  (slope threshold : Series I float) : Series I bool :=
  szip andb (smap negb volatile)
       (szip (fun a th => th <? a)%float (pd.abs slope) threshold).

(** [(~volatile_mask) & (slope.abs() <= slope_threshold)] *)
Definition range_mask (volatile : Series I bool)
  (slope threshold : Series I float) : Series I bool :=
  szip andb (smap negb volatile)
       (szip (fun a th => a <=? th)%float (pd.abs slope) threshold).

(** [labels[mask] = label] *)
Definition assign (labels : Series I string) (mask : Series I bool)
  (label : string) : Series I string :=
  szip (fun old b => if b : bool then label else old) labels mask.

(** The four intermediate series of one call, in the order the source
    computes them. *)
Record Intermediates : Type := mkIntermediates
  { i_vol : Series I float;
    i_typical_vol : Series I float;
    i_slope : Series I float;
    i_threshold : Series I float }.

Definition intermediates (close : Series I float) (cfg : RegimeConfig)
  : result Intermediates :=
  let r := simple_returns close in
  vol <- rolling_volatility r (lookback_vol cfg) ;;
  typical_vol <- pd.rolling (typical_vol_window cfg) pd.median vol ;;
  let slope := simple_slope close (lookback_trend cfg) in
  threshold <- threshold_series close slope cfg ;;
  Ok (mkIntermediates vol typical_vol slope threshold).

(** The mask composition that follows the minimum-data gate. *)
Definition label_points (labels : Series I string) (im : Intermediates)
  (cfg : RegimeConfig) : Series I string :=
  let volatile := volatile_mask (i_vol im) (i_typical_vol im) cfg in
  let trend := trend_mask volatile (i_slope im) (i_threshold im) in
  let range := range_mask volatile (i_slope im) (i_threshold im) in
  assign (assign (assign labels volatile VOLATILE) trend TREND) range RANGE.

(** [labels = pd.Series(index=close.index); labels[:] = "UNCERTAIN"] *)
Definition uncertain_labels (close : Series I float) : Series I string :=
  mkSeries (index close) (map (fun _ => UNCERTAIN) (values close)).

Definition classify_regimes (close : Series I float)
  (cfg : option RegimeConfig) : result (Series I string) :=
  let cfg := match cfg with Some c => c | None => default_config end in
  im <- intermediates close cfg ;;
  let labels := uncertain_labels close in
  if len close <? min_bars_needed cfg then Ok labels
  else Ok (label_points labels im cfg).

End Classifier.

(** ** src/decision_gate.py *)

Record Decision : Type := mkDecision
  { allow_trade : bool;
    position_size : float;
    note : string }.

Definition decision_gate (regime : string) : Decision :=
  if String.eqb regime "TREND" then
    {| allow_trade := true;
       position_size := 1.0%float;
       note := "Trend regime: full risk allowed" |}
  else if String.eqb regime "RANGE" then
    {| allow_trade := true;
       position_size := 0.5%float;
       note := "Range regime: reduced size" |}
  else if String.eqb regime "VOLATILE" then
    {| allow_trade := false;
       position_size := 0.0%float;
       note := "Volatile regime: trading disabled" |}
  else
    {| allow_trade := false;
       position_size := 0.0%float;
       note := "Uncertain regime: no trade" |}.

(** The file as shipped does not begin with the function: line 1 is the
    word [You] between two zero-width spaces (U+200B).  The tokenizer
    refuses that character outside strings and comments, so compiling
    the module raises [SyntaxError] and [decision_gate] is never bound;
    without the two characters the line would be the unbound name
    [You]. *)
Definition zero_width_space : Z := 8203.

(** Line 1 of the file, as code points. *)
Definition decision_gate_line1 : list Z :=
  [zero_width_space; 89; 111; 117; zero_width_space].

Definition import_decision_gate : result (string -> Decision) :=
  if existsb (Z.eqb zero_width_space) decision_gate_line1 then
    Raise (SyntaxError "invalid non-printable character U+200B")
  else
    Raise (NameError "name 'You' is not defined").

(** [from decision_gate import decision_gate; decision_gate(regime)] *)
Definition shipped_decision_gate (regime : string) : result Decision :=
  f <- import_decision_gate ;;
  Ok (f regime).

(** ** Vocabulary of the statements *)

(** [s.iloc[i]] *)
Definition iloc {I A : Type} (s : Series I A) (i : nat) : option A :=
  nth_error (values s) i.

Definition regime_labels : list string := [TREND; RANGE; VOLATILE; UNCERTAIN].

(** A configuration as the data model describes it: positive window
    sizes, a positive real multiplier, a real threshold that is not
    negative. *)
Definition valid_config (cfg : RegimeConfig) : bool :=
  (0 <? lookback_vol cfg) && (0 <? lookback_trend cfg)
  && (0 <? typical_vol_window cfg)
  && positive_price (vol_mult_high cfg)
  && ((0 <=? slope_threshold cfg) && (slope_threshold cfg <? infinity))%float.

(** An integer of machine size (a signed 64-bit integer): the range in
    which pandas takes a window size or a shift distance and [float()]
    converts without overflow. *)
Definition machine_int (z : Z) : bool :=
  (- 2 ^ 63 <=? z) && (z <? 2 ^ 63).

Definition machine_windows (cfg : RegimeConfig) : bool :=
  machine_int (lookback_vol cfg) && machine_int (lookback_trend cfg)
  && machine_int (typical_vol_window cfg).

Definition with_slope_threshold (cfg : RegimeConfig) (th : float)
  : RegimeConfig :=
  {| lookback_vol := lookback_vol cfg;
     lookback_trend := lookback_trend cfg;
     typical_vol_window := typical_vol_window cfg;
     vol_mult_high := vol_mult_high cfg;
     slope_threshold := th |}.

(** The three masks of one call, read at one place. *)
Definition volatile_at {I : Type} (im : @Intermediates I) (cfg : RegimeConfig)
  (i : nat) : bool :=
  nth i (values (volatile_mask (i_vol im) (i_typical_vol im) cfg)) false.

Definition trend_at {I : Type} (im : @Intermediates I) (cfg : RegimeConfig)
  (i : nat) : bool :=
  nth i (values (trend_mask (volatile_mask (i_vol im) (i_typical_vol im) cfg)
                            (i_slope im) (i_threshold im))) false.

Definition range_at {I : Type} (im : @Intermediates I) (cfg : RegimeConfig)
  (i : nat) : bool :=
  nth i (values (range_mask (volatile_mask (i_vol im) (i_typical_vol im) cfg)
                            (i_slope im) (i_threshold im))) false.

(** The label the three assignments leave at a place whose volatility,
    baseline, slope and threshold are [v], [t], [s] and [th]: the last
    mask that holds there decides. *)
Definition point_label (cfg : RegimeConfig) (v t s th : float) : string :=
  let volatile := (t * vol_mult_high cfg <? v)%float in
  if negb volatile && (abs s <=? th)%float then RANGE
  else if negb volatile && (th <? abs s)%float then TREND
  else if volatile then VOLATILE
  else UNCERTAIN.

(** The four intermediate values at place [i]. *)
Record Place {I : Type} (im : @Intermediates I) (i : nat)
  (v t s th : float) : Prop := mkPlace
  { place_vol : iloc (i_vol im) i = Some v;
    place_typical_vol : iloc (i_typical_vol im) i = Some t;
    place_slope : iloc (i_slope im) i = Some s;
    place_threshold : iloc (i_threshold im) i = Some th }.

(** A series over the bar numbers [0, 1, ...]. *)
Definition bars (prices : list float) : Series nat float :=
  mkSeries (seq 0 (List.length prices)) prices.

(** A small configuration: volatility over 2 returns, baseline over 2
    volatilities, slope over 1 bar; [min_bars_needed] is 5. *)
Definition small_config (th : float) : RegimeConfig :=
  {| lookback_vol := 2;
     lookback_trend := 1;
     typical_vol_window := 2;
     vol_mult_high := 1.5%float;
     slope_threshold := th |}.

(** A configuration pandas rejects: the volatility window is negative. *)
Definition negative_window_config : RegimeConfig :=
  {| lookback_vol := -1;
     lookback_trend := 1;
     typical_vol_window := 2;
     vol_mult_high := 1.5%float;
     slope_threshold := 1%float |}.

(** A value that is a zero of either sign, or NaN. *)
Definition zero_or_nan (x : float) : Prop :=
  Prim2SF x = S754_nan \/ exists s, Prim2SF x = S754_zero s.

(** * Facts about binary64 *)

Section FloatFacts.

Local Open Scope float_scope.

Lemma SFcompare_Lt_swap (x y : spec_float) :
  SFcompare x y = Some Lt -> SFcompare y x = Some Gt.
Proof.
  destruct x as [[]|[]| |[] mx ex], y as [[]|[]| |[] my ey];
    simpl; try congruence.
  all: change (Pos.compare_cont Eq mx my) with (Pos.compare mx my);
    change (Pos.compare_cont Eq my mx) with (Pos.compare my mx);
    rewrite (Z.compare_antisym ex ey), (Pos.compare_antisym mx my);
    destruct (Z.compare ex ey); simpl; try congruence;
    destruct (Pos.compare mx my); simpl; congruence.
Qed.

Lemma SFcompare_Eq_swap (x y : spec_float) :
  SFcompare x y = Some Eq -> SFcompare y x = Some Eq.
Proof.
  destruct x as [[]|[]| |[] mx ex], y as [[]|[]| |[] my ey];
    simpl; try congruence.
  all: change (Pos.compare_cont Eq mx my) with (Pos.compare mx my);
    change (Pos.compare_cont Eq my mx) with (Pos.compare my mx);
    rewrite (Z.compare_antisym ex ey), (Pos.compare_antisym mx my);
    destruct (Z.compare ex ey); simpl; try congruence;
    destruct (Pos.compare mx my); simpl; congruence.
Qed.

(** [a > b] and [a <= b] never hold together. *)
Lemma gt_not_le (a b : float) : (b <? a) = true -> (a <=? b) = false.
Proof.
  rewrite ltb_spec, leb_spec. unfold SFltb, SFleb.
  destruct (SFcompare (Prim2SF b) (Prim2SF a)) as [[]|] eqn:E;
    try discriminate.
  intros _. now rewrite (SFcompare_Lt_swap _ _ E).
Qed.

Lemma lt_le (a b : float) : (a <? b) = true -> (a <=? b) = true.
Proof.
  rewrite ltb_spec, leb_spec. unfold SFltb, SFleb.
  now destruct (SFcompare (Prim2SF a) (Prim2SF b)) as [[]|].
Qed.

Lemma eq_le (a b : float) : (a =? b) = true -> (a <=? b) = true.
Proof.
  rewrite eqb_spec, leb_spec. unfold SFeqb, SFleb.
  now destruct (SFcompare (Prim2SF a) (Prim2SF b)) as [[]|].
Qed.

Lemma eq_not_gt (a b : float) : (a =? b) = true -> (b <? a) = false.
Proof.
  rewrite eqb_spec, ltb_spec. unfold SFeqb, SFltb.
  destruct (SFcompare (Prim2SF a) (Prim2SF b)) as [[]|] eqn:E;
    try discriminate.
  intros _. now rewrite (SFcompare_Eq_swap _ _ E).
Qed.

(** A positive price is a finite number with a clear sign bit. *)
Lemma positive_price_finite (p : float) :
  positive_price p = true -> exists m e, Prim2SF p = S754_finite false m e.
Proof.
  unfold positive_price. rewrite andb_true_iff, !ltb_spec. intros [Hp Hi].
  destruct (Prim2SF p) as [[]|[]| |[] m e]; try discriminate; eauto.
Qed.

Lemma div_eucl_mul_pow (m : positive) :
  Z.div_eucl (Z.pos m * 2 ^ 53) (Z.pos m) = ((2 ^ 53)%Z, 0%Z).
Proof.
  rewrite (surjective_pairing (Z.div_eucl _ _)).
  change (fst (Z.div_eucl ?a ?b)) with (a / b)%Z.
  change (snd (Z.div_eucl ?a ?b)) with (a mod b)%Z.
  rewrite Z.mul_comm, Z.div_mul, Z.mod_mul by lia. reflexivity.
Qed.

Lemma SFdiv_core_binary_self (m : positive) (e : Z) :
  SFdiv_core_binary prec emax (Z.pos m) e (Z.pos m) e
  = ((2 ^ 53)%Z, (-53)%Z, loc_Exact).
Proof.
  unfold SFdiv_core_binary.
  rewrite !Z.sub_diag.
  change (Z.min (fexp prec emax 0) 0) with (-53)%Z.
  change (0 - -53)%Z with 53%Z. cbv beta iota zeta.
  rewrite Z.shiftl_mul_pow2 by lia.
  rewrite div_eucl_mul_pow.
  unfold new_location, new_location_even, new_location_odd.
  destruct (Z.even (Z.pos m)); reflexivity.
Qed.

(** [p / p] is exactly 1 and [p - p] exactly 0 for a positive price. *)
Lemma div_self (p : float) : positive_price p = true -> p / p = 1.
Proof.
  intros Hp. destruct (positive_price_finite p Hp) as (m & e & E).
  apply Prim2SF_inj. rewrite div_spec, E.
  unfold SF64div, SFdiv. simpl xorb.
  rewrite SFdiv_core_binary_self. vm_compute. reflexivity.
Qed.

Lemma sub_self (p : float) : positive_price p = true -> p - p = 0.
Proof.
  intros Hp. destruct (positive_price_finite p Hp) as (m & e & E).
  apply Prim2SF_inj. rewrite sub_spec, E.
  unfold SF64sub, SFsub. rewrite Z.min_id.
  unfold shl_align. rewrite Z.sub_diag.
  cbn [fst cond_Zopp negb Z.opp Z.add]. reflexivity.
Qed.

(** Zeros and NaN are closed under the arithmetic of the pipeline. *)
Lemma zero_or_nan_zero : zero_or_nan 0.
Proof. right. now exists false. Qed.

Lemma zero_or_nan_nan : zero_or_nan nan.
Proof. now left. Qed.

Lemma zero_or_nan_add (a b : float) :
  zero_or_nan a -> zero_or_nan b -> zero_or_nan (a + b).
Proof.
  unfold zero_or_nan. rewrite add_spec.
  intros [-> | [sa ->]] [-> | [sb ->]]; simpl; auto.
  destruct sa, sb; simpl; eauto.
Qed.

Lemma zero_or_nan_sub (a b : float) :
  zero_or_nan a -> zero_or_nan b -> zero_or_nan (a - b).
Proof.
  unfold zero_or_nan. rewrite sub_spec.
  intros [-> | [sa ->]] [-> | [sb ->]]; simpl; auto.
  destruct sa, sb; simpl; eauto.
Qed.

Lemma zero_or_nan_mul (a b : float) : zero_or_nan a -> zero_or_nan (a * b).
Proof.
  unfold zero_or_nan. rewrite mul_spec.
  intros [-> | [sa ->]]; simpl; auto.
  destruct (Prim2SF b); simpl; eauto.
Qed.

Lemma zero_or_nan_div (a b : float) : zero_or_nan a -> zero_or_nan (a / b).
Proof.
  unfold zero_or_nan. rewrite div_spec.
  intros [-> | [sa ->]]; simpl; auto.
  destruct (Prim2SF b); simpl; eauto.
Qed.

Lemma zero_or_nan_sqrt (a : float) : zero_or_nan a -> zero_or_nan (sqrt a).
Proof.
  unfold zero_or_nan. rewrite sqrt_spec.
  intros [-> | [sa ->]]; simpl; eauto.
Qed.

(** Nothing is strictly below a zero or a NaN among zeros and NaNs. *)
Lemma zero_or_nan_not_lt (a b : float) :
  zero_or_nan a -> zero_or_nan b -> (a <? b) = false.
Proof.
  unfold zero_or_nan. rewrite ltb_spec.
  intros [-> | [sa ->]] [-> | [sb ->]]; reflexivity.
Qed.

Local Open Scope Z_scope.

Lemma digits2_pos_iter_xO (m k : positive) :
  Z.pos (digits2_pos (Pos.iter xO m k)) = Z.pos (digits2_pos m) + Z.pos k.
Proof.
  induction k as [|k IH] using Pos.peano_ind.
  - simpl. lia.
  - rewrite Pos.iter_succ. cbn [digits2_pos]. rewrite Pos2Z.inj_succ. lia.
Qed.

Lemma shr_1_digits (mrs : shr_record) (q : positive) :
  shr_m mrs = Z.pos q -> 1 < Z.pos (digits2_pos q) ->
  exists q', shr_m (shr_1 mrs) = Z.pos q'
             /\ Z.pos (digits2_pos q') = Z.pos (digits2_pos q) - 1.
Proof.
  destruct mrs as [m r s]. cbn [shr_m]. intros -> Hd.
  destruct q as [p|p|]; cbn [shr_1 shr_m digits2_pos] in *;
    rewrite ?Pos2Z.inj_succ in *; try lia; exists p; split; auto; lia.
Qed.

Lemma iter_shr_1_digits (k : positive) :
  forall (mrs : shr_record) (q : positive),
    shr_m mrs = Z.pos q -> Z.pos k < Z.pos (digits2_pos q) ->
    exists q', shr_m (iter_pos shr_1 k mrs) = Z.pos q'
               /\ Z.pos (digits2_pos q') = Z.pos (digits2_pos q) - Z.pos k.
Proof.
  induction k as [k IH|k IH|]; intros mrs q Hm Hd; simpl iter_pos.
  - destruct (shr_1_digits mrs q Hm) as (q1 & H1 & D1); [lia|].
    destruct (IH _ q1 H1) as (q2 & H2 & D2); [lia|].
    destruct (IH _ q2 H2) as (q3 & H3 & D3); [lia|].
    exists q3. split; auto. lia.
  - destruct (IH _ q Hm) as (q2 & H2 & D2); [lia|].
    destruct (IH _ q2 H2) as (q3 & H3 & D3); [lia|].
    exists q3. split; auto. lia.
  - apply shr_1_digits; auto.
Qed.

Lemma shr_fexp_digits (q : positive) (e : Z) (l : location) :
  -1074 <= e -> 53 <= Z.pos (digits2_pos q) ->
  exists mrs q',
    shr_fexp prec emax (Z.pos q) e l = (mrs, e + (Z.pos (digits2_pos q) - 53))
    /\ shr_m mrs = Z.pos q' /\ Z.pos (digits2_pos q') = 53.
Proof.
  intros He Hd. unfold shr_fexp, fexp, emin. simpl Zdigits2.
  change (3 - emax - prec) with (-1074). change prec with 53.
  rewrite Z.max_l by lia.
  replace (Z.pos (digits2_pos q) + e - 53 - e) with (Z.pos (digits2_pos q) - 53) by lia.
  destruct (Z.pos (digits2_pos q) - 53) as [|k|k] eqn:Ek; try lia.
  - exists (shr_record_of_loc (Z.pos q) l), q. unfold shr.
    rewrite Z.add_0_r. repeat split; try lia.
    destruct l as [|[]]; reflexivity.
  - assert (Hq : shr_m (shr_record_of_loc (Z.pos q) l) = Z.pos q)
      by (destruct l as [|[]]; reflexivity).
    destruct (iter_shr_1_digits k _ q Hq) as (q' & H1 & D1); [lia|].
    exists (iter_pos shr_1 k (shr_record_of_loc (Z.pos q) l)), q'.
    unfold shr. repeat split; auto. lia.
Qed.

Lemma digits2_pos_succ (q : positive) :
  digits2_pos (Pos.succ q) = digits2_pos q
  \/ digits2_pos (Pos.succ q) = Pos.succ (digits2_pos q).
Proof.
  induction q as [q IH|q IH|]; simpl; auto.
  destruct IH as [-> | ->]; auto.
Qed.

Lemma round_nearest_even_pos (q : positive) (l : location) :
  exists q', round_nearest_even (Z.pos q) l = Z.pos q'
             /\ Z.pos (digits2_pos q) <= Z.pos (digits2_pos q')
                <= Z.pos (digits2_pos q) + 1.
Proof.
  assert (Hs : exists q', Z.pos q + 1 = Z.pos q'
             /\ Z.pos (digits2_pos q) <= Z.pos (digits2_pos q')
                <= Z.pos (digits2_pos q) + 1).
  { exists (Pos.succ q). split; [lia|].
    destruct (digits2_pos_succ q) as [-> | ->];
      rewrite ?Pos2Z.inj_succ; lia. }
  assert (Hq : exists q', Z.pos q = Z.pos q'
             /\ Z.pos (digits2_pos q) <= Z.pos (digits2_pos q')
                <= Z.pos (digits2_pos q) + 1) by (exists q; split; [auto|lia]).
  unfold round_nearest_even.
  destruct l as [|[]]; auto. destruct (Z.even (Z.pos q)); auto.
Qed.

Lemma binary_round_aux_pos (q : positive) (e : Z) (l : location) :
  -1074 <= e -> 53 <= Z.pos (digits2_pos q) ->
  (exists m' e', binary_round_aux prec emax false (Z.pos q) e l
                 = S754_finite false m' e'
                 /\ valid_binary (S754_finite false m' e') = true)
  \/ binary_round_aux prec emax false (Z.pos q) e l = S754_infinity false.
Proof.
  intros He Hd. unfold binary_round_aux.
  destruct (shr_fexp_digits q e l He Hd) as (mrs1 & q1 & -> & Hm1 & D1).
  rewrite Hm1.
  destruct (round_nearest_even_pos q1 (loc_of_shr_record mrs1))
    as (q2 & -> & D2).
  destruct (shr_fexp_digits q2 (e + (Z.pos (digits2_pos q) - 53)) loc_Exact)
    as (mrs3 & q3 & -> & Hm3 & D3); [lia|lia|].
  rewrite Hm3.
  set (e3 := e + (Z.pos (digits2_pos q) - 53) + (Z.pos (digits2_pos q2) - 53)).
  destruct (e3 <=? emax - prec) eqn:Hle; [left|right; reflexivity].
  exists q3, e3. split; [reflexivity|].
  unfold valid_binary, SpecFloat.valid_binary, bounded, canonical_mantissa. rewrite Hle, andb_true_r.
  apply Z.eqb_eq. unfold fexp, emin.
  change (3 - emax - prec) with (-1074). change prec with 53.
  rewrite D3. subst e3. lia.
Qed.

Lemma binary_normalize_pos (p : positive) :
  (exists m' e', binary_normalize prec emax (Z.pos p) 0 false
                 = S754_finite false m' e'
                 /\ valid_binary (S754_finite false m' e') = true)
  \/ binary_normalize prec emax (Z.pos p) 0 false = S754_infinity false.
Proof.
  unfold binary_normalize, binary_round, shl_align, fexp, emin.
  change (3 - emax - prec) with (-1074). change prec with 53.
  rewrite Z.add_0_r, Z.sub_0_r, Z.max_l by lia.
  destruct (Z.pos (digits2_pos p) - 53) as [|k|k] eqn:Ek.
  - apply binary_round_aux_pos; lia.
  - apply binary_round_aux_pos; lia.
  - apply binary_round_aux_pos; [lia|].
    rewrite digits2_pos_iter_xO. lia.
Qed.

(** [float(n)] of a positive integer [n] is a positive number or the
    positive infinity, never a zero or NaN. *)
Lemma float_of_Z_pos (z : Z) :
  0 < z ->
  (exists m e, Prim2SF (float_of_Z z) = S754_finite false m e)
  \/ Prim2SF (float_of_Z z) = S754_infinity false.
Proof.
  intros Hz. destruct z as [|p|p]; try lia. unfold float_of_Z.
  destruct (binary_normalize_pos p) as [(m & e & -> & Hv) | ->].
  - left. exists m, e. now apply Prim2SF_SF2Prim.
  - right. now apply Prim2SF_SF2Prim.
Qed.

Local Open Scope float_scope.

Lemma zero_div_float_of_Z (z : Z) : (0 < z)%Z -> 0 / float_of_Z z = 0.
Proof.
  intros Hz. apply Prim2SF_inj. rewrite div_spec.
  destruct (float_of_Z_pos z Hz) as [(m & e & ->) | ->]; reflexivity.
Qed.

(** NaN compares [false] with everything, also behind [abs]. *)
Lemma isnan_spec (x : float) : isnan x = true -> Prim2SF x = S754_nan.
Proof.
  unfold isnan. rewrite eqb_spec. unfold SFeqb.
  destruct (Prim2SF x) as [[]|[]| |[] m e]; simpl; try discriminate; auto.
  all: change (Pos.compare_cont Eq m m) with (Pos.compare m m);
    rewrite Z.compare_refl, Pos.compare_refl; discriminate.
Qed.

Lemma nan_slope_comparisons (s th : float) :
  isnan s = true \/ isnan th = true ->
  (th <? abs s) = false /\ (abs s <=? th) = false.
Proof.
  rewrite ltb_spec, leb_spec, abs_spec. unfold SFltb, SFleb.
  intros [H | H]; apply isnan_spec in H; rewrite H; simpl.
  - now destruct (Prim2SF th).
  - now destruct (SFabs (Prim2SF s)).
Qed.

End FloatFacts.


(** * Facts about series and the pandas operations *)

Section SeriesFacts.

Context {I : Type}.

Lemma nth_error_zip_with {A B C : Type} (f : A -> B -> C)
  (l1 : list A) (l2 : list B) (i : nat) :
  nth_error (zip_with f l1 l2) i
  = match nth_error l1 i, nth_error l2 i with
    | Some a, Some b => Some (f a b)
    | _, _ => None
    end.
Proof.
  unfold zip_with. revert l2 i.
  induction l1 as [|a l1 IH]; intros [|b l2] [|i]; simpl; auto.
  now destruct (nth_error l1 i).
Qed.

Lemma length_zip_with {A B C : Type} (f : A -> B -> C)
  (l1 : list A) (l2 : list B) :
  List.length (zip_with f l1 l2) = Nat.min (List.length l1) (List.length l2).
Proof. unfold zip_with. now rewrite length_map, length_combine. Qed.

Lemma iloc_smap {A B : Type} (f : A -> B) (s : Series I A) (i : nat) :
  iloc (smap f s) i = option_map f (iloc s i).
Proof. unfold iloc, smap. simpl. apply nth_error_map. Qed.

Lemma iloc_szip {A B C : Type} (f : A -> B -> C)
  (s1 : Series I A) (s2 : Series I B) (i : nat) :
  iloc (szip f s1 s2) i
  = match iloc s1 i, iloc s2 i with
    | Some a, Some b => Some (f a b)
    | _, _ => None
    end.
Proof. unfold iloc, szip. simpl. apply nth_error_zip_with. Qed.

Lemma iloc_Some {A : Type} (s : Series I A) (i : nat) :
  (i < List.length (values s))%nat -> exists a, iloc s i = Some a.
Proof.
  intros Hi. unfold iloc.
  destruct (nth_error (values s) i) eqn:E; eauto.
  apply nth_error_None in E. lia.
Qed.

Lemma iloc_lt {A : Type} (s : Series I A) (i : nat) (a : A) :
  iloc s i = Some a -> (i < List.length (values s))%nat.
Proof. unfold iloc. intros H. apply nth_error_Some. congruence. Qed.

Lemma nth_iloc {A : Type} (s : Series I A) (i : nat) (d a : A) :
  iloc s i = Some a -> nth i (values s) d = a.
Proof. unfold iloc. intros H. now apply nth_error_nth. Qed.

Lemma length_shift_values (k : Z) (vals : list float) :
  List.length (pd.shift_values k vals) = List.length vals.
Proof.
  unfold pd.shift_values. destruct (0 <=? k).
  - rewrite length_firstn, length_app. lia.
  - rewrite length_app, length_skipn, repeat_length. lia.
Qed.

(** A roller fails exactly on a negative window, and otherwise keeps
    the number of rows. *)
Lemma rolling_nonneg (w : Z) (agg : list float -> float)
  (s : Series I float) :
  0 <= w ->
  pd.rolling w agg s
  = Ok (mkSeries (index s)
          (map (pd.rolling_at (Z.to_nat w) agg (values s))
               (seq 0 (List.length (values s))))).
Proof.
  intros Hw. unfold pd.rolling, pd.rolling_values.
  destruct (w <? 0) eqn:E; [apply Z.ltb_lt in E; lia | reflexivity].
Qed.

Lemma rolling_negative (w : Z) (agg : list float -> float)
  (s : Series I float) :
  w < 0 ->
  pd.rolling w agg s
  = Raise (ValueError "window must be an integer 0 or greater").
Proof.
  intros Hw. unfold pd.rolling, pd.rolling_values.
  apply Z.ltb_lt in Hw. now rewrite Hw.
Qed.

Lemma rolling_Ok (w : Z) (agg : list float -> float)
  (s r : Series I float) :
  pd.rolling w agg s = Ok r ->
  0 <= w /\ index r = index s
  /\ List.length (values r) = List.length (values s)
  /\ forall i, (i < List.length (values s))%nat ->
               iloc r i = Some (pd.rolling_at (Z.to_nat w) agg (values s) i).
Proof.
  intros H. destruct (Z.ltb_spec w 0) as [Hw|Hw].
  - rewrite rolling_negative in H by assumption. discriminate.
  - rewrite rolling_nonneg in H by assumption. injection H as <-.
    simpl. rewrite length_map, length_seq. repeat split; auto.
    intros i Hi. unfold iloc. simpl.
    rewrite nth_error_map, nth_error_seq.
    destruct (Nat.ltb_spec i (List.length (values s))); [reflexivity | lia].
Qed.

(** The slope threshold never fails: its window is the constant 200. *)
Lemma threshold_series_Ok (close slope : Series I float) (cfg : RegimeConfig) :
  exists th, threshold_series close slope cfg = Ok th.
Proof.
  unfold threshold_series.
  destruct (slope_threshold cfg <=? 0)%float; [|eauto].
  rewrite rolling_nonneg by lia. eauto.
Qed.

Lemma length_simple_slope (close : Series I float) (k : Z) :
  List.length (values (simple_slope close k)) = List.length (values close).
Proof.
  unfold simple_slope. simpl.
  rewrite length_map, length_zip_with, length_shift_values. lia.
Qed.

Lemma length_simple_returns (close : Series I float) :
  List.length (values (simple_returns close)) = List.length (values close).
Proof.
  unfold simple_returns, pd.pct_change. simpl.
  rewrite length_zip_with, length_shift_values. lia.
Qed.

Lemma threshold_series_length (close slope th : Series I float)
  (cfg : RegimeConfig) :
  List.length (values slope) = List.length (values close) ->
  threshold_series close slope cfg = Ok th ->
  List.length (values th) = List.length (values close).
Proof.
  unfold threshold_series. intros Hs.
  destruct (slope_threshold cfg <=? 0)%float.
  - intros H. apply rolling_Ok in H. destruct H as (_ & _ & -> & _).
    simpl. now rewrite length_map.
  - intros H. injection H as <-. simpl. apply length_map.
Qed.

(** The intermediates exist exactly when neither rolling window is
    negative. *)
Lemma intermediates_Ok (close : Series I float) (cfg : RegimeConfig) :
  0 <= lookback_vol cfg -> 0 <= typical_vol_window cfg ->
  exists im, intermediates close cfg = Ok im.
Proof.
  intros Hv Ht. unfold intermediates, rolling_volatility.
  rewrite rolling_nonneg by assumption. simpl bind.
  rewrite rolling_nonneg by assumption. simpl bind.
  match goal with
  | |- context [threshold_series ?c ?s ?g] =>
      destruct (threshold_series_Ok c s g) as [th ->]
  end.
  simpl. eauto.
Qed.

Lemma intermediates_Raise (close : Series I float) (cfg : RegimeConfig) :
  lookback_vol cfg < 0 \/ typical_vol_window cfg < 0 ->
  exists e, intermediates close cfg = Raise e.
Proof.
  intros H. unfold intermediates, rolling_volatility.
  destruct (Z.ltb_spec (lookback_vol cfg) 0) as [Hv|Hv].
  - rewrite rolling_negative by assumption. simpl. eauto.
  - rewrite rolling_nonneg by assumption. simpl bind.
    rewrite rolling_negative by lia. simpl. eauto.
Qed.

Lemma intermediates_inv (close : Series I float) (cfg : RegimeConfig)
  (im : Intermediates) :
  intermediates close cfg = Ok im ->
  pd.rolling (lookback_vol cfg) pd.std (simple_returns close) = Ok (i_vol im)
  /\ pd.rolling (typical_vol_window cfg) pd.median (i_vol im)
     = Ok (i_typical_vol im)
  /\ i_slope im = simple_slope close (lookback_trend cfg)
  /\ threshold_series close (i_slope im) cfg = Ok (i_threshold im).
Proof.
  unfold intermediates, rolling_volatility.
  destruct (pd.rolling (lookback_vol cfg) pd.std (simple_returns close))
    as [vol|] eqn:Ev; simpl; [|discriminate].
  destruct (pd.rolling (typical_vol_window cfg) pd.median vol)
    as [typ|] eqn:Et; simpl; [|discriminate].
  destruct (threshold_series close (simple_slope close (lookback_trend cfg)) cfg)
    as [th|] eqn:Eth; simpl; [|discriminate].
  intros H. injection H as <-. simpl. auto.
Qed.

Lemma intermediates_length (close : Series I float) (cfg : RegimeConfig)
  (im : Intermediates) :
  intermediates close cfg = Ok im ->
  List.length (values (i_vol im)) = List.length (values close)
  /\ List.length (values (i_typical_vol im)) = List.length (values close)
  /\ List.length (values (i_slope im)) = List.length (values close)
  /\ List.length (values (i_threshold im)) = List.length (values close).
Proof.
  intros H. apply intermediates_inv in H. destruct H as (Hv & Ht & Hs & Hth).
  apply rolling_Ok in Hv. destruct Hv as (_ & _ & Lv & _).
  apply rolling_Ok in Ht. destruct Ht as (_ & _ & Lt & _).
  rewrite length_simple_returns in Lv.
  assert (Ls : List.length (values (i_slope im)) = List.length (values close))
    by (rewrite Hs; apply length_simple_slope).
  repeat split; try congruence.
  eapply threshold_series_length; eauto.
Qed.

End SeriesFacts.

(** * The classifier, place by place *)

Section ClassifierFacts.

Context {I : Type}.

Lemma classify_regimes_unfold (close : Series I float) (cfg : RegimeConfig)
  (im : Intermediates) :
  intermediates close cfg = Ok im ->
  classify_regimes close (Some cfg)
  = if len close <? min_bars_needed cfg then Ok (uncertain_labels close)
    else Ok (label_points (uncertain_labels close) im cfg).
Proof. intros H. unfold classify_regimes. now rewrite H. Qed.

Lemma classify_regimes_Ok_inv (close : Series I float) (cfg : RegimeConfig)
  (labels : Series I string) :
  classify_regimes close (Some cfg) = Ok labels ->
  exists im, intermediates close cfg = Ok im.
Proof.
  unfold classify_regimes.
  destruct (intermediates close cfg) as [im|e]; simpl; [eauto|discriminate].
Qed.

Lemma iloc_uncertain_labels (close : Series I float) (i : nat) :
  (i < List.length (values close))%nat ->
  iloc (uncertain_labels close) i = Some UNCERTAIN.
Proof.
  intros Hi. unfold iloc, uncertain_labels. simpl.
  rewrite nth_error_map.
  destruct (nth_error (values close) i) eqn:E; [reflexivity|].
  apply nth_error_None in E. lia.
Qed.

Lemma iloc_volatile_mask (vol typ : Series I float) (cfg : RegimeConfig)
  (i : nat) (v t : float) :
  iloc vol i = Some v -> iloc typ i = Some t ->
  iloc (volatile_mask vol typ cfg) i
  = Some (t * vol_mult_high cfg <? v)%float.
Proof.
  intros Hv Ht. unfold volatile_mask.
  now rewrite iloc_szip, iloc_smap, Hv, Ht.
Qed.

Lemma iloc_trend_mask (vm : Series I bool) (slope thr : Series I float)
  (i : nat) (b : bool) (s th : float) :
  iloc vm i = Some b -> iloc slope i = Some s -> iloc thr i = Some th ->
  iloc (trend_mask vm slope thr) i = Some (negb b && (th <? abs s)%float).
Proof.
  intros Hb Hs Hth. unfold trend_mask, pd.abs.
  now rewrite !iloc_szip, !iloc_smap, Hb, Hs, Hth.
Qed.

Lemma iloc_range_mask (vm : Series I bool) (slope thr : Series I float)
  (i : nat) (b : bool) (s th : float) :
  iloc vm i = Some b -> iloc slope i = Some s -> iloc thr i = Some th ->
  iloc (range_mask vm slope thr) i = Some (negb b && (abs s <=? th)%float).
Proof.
  intros Hb Hs Hth. unfold range_mask, pd.abs.
  now rewrite !iloc_szip, !iloc_smap, Hb, Hs, Hth.
Qed.

Lemma iloc_assign (labels : Series I string) (mask : Series I bool)
  (label old : string) (b : bool) (i : nat) :
  iloc labels i = Some old -> iloc mask i = Some b ->
  iloc (assign labels mask label) i = Some (if b then label else old).
Proof. intros Hl Hm. unfold assign. now rewrite iloc_szip, Hl, Hm. Qed.

Lemma place_exists (close : Series I float) (cfg : RegimeConfig)
  (im : Intermediates) (i : nat) :
  intermediates close cfg = Ok im ->
  (i < List.length (values close))%nat ->
  exists v t s th, Place im i v t s th.
Proof.
  intros H Hi. destruct (intermediates_length _ _ _ H) as (Lv & Lt & Ls & Lth).
  destruct (iloc_Some (i_vol im) i) as [v Hv]; [lia|].
  destruct (iloc_Some (i_typical_vol im) i) as [t Ht]; [lia|].
  destruct (iloc_Some (i_slope im) i) as [s Hs]; [lia|].
  destruct (iloc_Some (i_threshold im) i) as [th Hth]; [lia|].
  exists v, t, s, th. now constructor.
Qed.

Lemma place_masks (im : @Intermediates I) (cfg : RegimeConfig) (i : nat)
  (v t s th : float) :
  Place im i v t s th ->
  volatile_at im cfg i = (t * vol_mult_high cfg <? v)%float
  /\ trend_at im cfg i
     = (negb (t * vol_mult_high cfg <? v) && (th <? abs s))%float
  /\ range_at im cfg i
     = (negb (t * vol_mult_high cfg <? v) && (abs s <=? th))%float.
Proof.
  intros [Hv Ht Hs Hth].
  pose proof (iloc_volatile_mask _ _ cfg _ _ _ Hv Ht) as Hm.
  unfold volatile_at, trend_at, range_at. repeat split.
  - now apply nth_iloc.
  - apply nth_iloc. now apply iloc_trend_mask.
  - apply nth_iloc. now apply iloc_range_mask.
Qed.

Lemma place_label (close : Series I float) (im : @Intermediates I)
  (cfg : RegimeConfig) (i : nat) (v t s th : float) :
  Place im i v t s th ->
  (i < List.length (values close))%nat ->
  iloc (label_points (uncertain_labels close) im cfg) i
  = Some (point_label cfg v t s th).
Proof.
  intros [Hv Ht Hs Hth] Hi. unfold label_points.
  pose proof (iloc_volatile_mask _ _ cfg _ _ _ Hv Ht) as Hm.
  pose proof (iloc_uncertain_labels close i Hi) as H0.
  pose proof (iloc_assign _ _ VOLATILE _ _ _ H0 Hm) as H1.
  pose proof (iloc_assign _ _ TREND _ _ _ H1
                (iloc_trend_mask _ _ _ _ _ _ _ Hm Hs Hth)) as H2.
  pose proof (iloc_assign _ _ RANGE _ _ _ H2
                (iloc_range_mask _ _ _ _ _ _ _ Hm Hs Hth)) as H3.
  rewrite H3. reflexivity.
Qed.

Lemma point_label_in (cfg : RegimeConfig) (v t s th : float) :
  In (point_label cfg v t s th) regime_labels.
Proof.
  unfold point_label, regime_labels.
  destruct (negb _ && (abs s <=? th)%float); [simpl; auto|].
  destruct (negb _ && (th <? abs s)%float); [simpl; auto|].
  destruct (_ <? v)%float; simpl; auto.
Qed.

Lemma label_points_shape (close : Series I float) (cfg : RegimeConfig)
  (im : Intermediates) :
  intermediates close cfg = Ok im ->
  index (label_points (uncertain_labels close) im cfg) = index close
  /\ List.length (values (label_points (uncertain_labels close) im cfg))
     = List.length (values close).
Proof.
  intros H. split; [reflexivity|].
  destruct (intermediates_length _ _ _ H) as (Lv & Lt & Ls & Lth).
  unfold label_points, assign, trend_mask, range_mask, volatile_mask,
    uncertain_labels, pd.abs, szip, smap. simpl.
  rewrite !length_zip_with, !length_map, !length_zip_with, !length_map.
  lia.
Qed.

(** The shape of every result: the index of [close], one label per row,
    each label one of the four. *)
Lemma classify_regimes_shape (close : Series I float) (cfg : RegimeConfig)
  (labels : Series I string) :
  classify_regimes close (Some cfg) = Ok labels ->
  index labels = index close
  /\ List.length (values labels) = List.length (values close)
  /\ forall i l, iloc labels i = Some l -> In l regime_labels.
Proof.
  intros H. destruct (classify_regimes_Ok_inv _ _ _ H) as [im Him].
  rewrite (classify_regimes_unfold _ _ _ Him) in H.
  destruct (len close <? min_bars_needed cfg); injection H as <-.
  - repeat split; [simpl; apply length_map|].
    intros i l Hl.
    assert (Hi : (i < List.length (values close))%nat).
    { apply iloc_lt in Hl.
      unfold uncertain_labels in Hl. simpl in Hl.
      now rewrite length_map in Hl. }
    rewrite iloc_uncertain_labels in Hl by assumption.
    injection Hl as <-. unfold regime_labels. simpl. auto.
  - destruct (label_points_shape _ _ _ Him) as [Hx Hn].
    repeat split; auto.
    intros i l Hl.
    assert (Hi : (i < List.length (values close))%nat).
    { rewrite <- Hn. eapply iloc_lt. exact Hl. }
    destruct (place_exists _ cfg _ i Him Hi) as (v & t & s & th & Hp).
    rewrite (place_label _ _ cfg _ _ _ _ _ Hp Hi) in Hl.
    injection Hl as <-. apply point_label_in.
Qed.

End ClassifierFacts.

(** * The minimum-data gate and the shape of the result *)

Lemma valid_config_windows (cfg : RegimeConfig) :
  valid_config cfg = true ->
  0 < lookback_vol cfg /\ 0 < lookback_trend cfg /\ 0 < typical_vol_window cfg.
Proof.
  unfold valid_config. rewrite !andb_true_iff, !Z.ltb_lt. tauto.
Qed.

(** C1.  For every configuration of the data model, with window sizes
    of machine size, and every price series of fewer than
    [min_bars_needed] rows, [classify_regimes] returns a series over the
    index of [close] in which every label is UNCERTAIN, one per row. *)
Theorem warm_up_all_uncertain {I : Type} (close : Series I float)
  (cfg : RegimeConfig) :
  valid_config cfg = true ->
  machine_windows cfg = true ->
  len close < min_bars_needed cfg ->
  exists labels,
    classify_regimes close (Some cfg) = Ok labels
    /\ index labels = index close
    /\ List.length (values labels) = List.length (values close)
    /\ Forall (fun l => l = UNCERTAIN) (values labels).
Proof.
  intros Hc _ Hlen.
  destruct (valid_config_windows cfg Hc) as (Hv & _ & Ht).
  destruct (intermediates_Ok close cfg) as [im Him]; [lia|lia|].
  exists (uncertain_labels close).
  rewrite (classify_regimes_unfold _ _ _ Him).
  apply Z.ltb_lt in Hlen. rewrite Hlen.
  repeat split.
  - simpl. apply length_map.
  - unfold uncertain_labels. simpl.
    induction (values close); simpl; constructor; auto.
Qed.

Lemma warm_up_all_uncertain_witness :
  exists labels,
    classify_regimes (bars [100; 101; 102]%float) (Some (small_config 1))
    = Ok labels
    /\ index labels = [0; 1; 2]%nat
    /\ List.length (values labels) = 3%nat
    /\ Forall (fun l => l = UNCERTAIN) (values labels).
Proof.
  apply (warm_up_all_uncertain (bars [100; 101; 102]%float) (small_config 1)).
  - reflexivity.
  - reflexivity.
  - reflexivity.
Defined.



(** * Failures *)

(** C7 (as amended).  For window sizes of machine size,
    [classify_regimes] checks neither the prices nor [vol_mult_high] nor
    [lookback_trend]: it raises exactly when [lookback_vol] or
    [typical_vol_window] is negative, the one check being the roller's
    own, and returns a label series on every other input, a short one
    included. *)
Theorem classify_raises_iff {I : Type} (close : Series I float)
  (cfg : RegimeConfig) :
  machine_windows cfg = true ->
  ((exists e, classify_regimes close (Some cfg) = Raise e)
   <-> lookback_vol cfg < 0 \/ typical_vol_window cfg < 0)
  /\ ((exists labels, classify_regimes close (Some cfg) = Ok labels)
      <-> 0 <= lookback_vol cfg /\ 0 <= typical_vol_window cfg).
Proof.
  intros _.
  destruct (Z.ltb_spec (lookback_vol cfg) 0) as [Hv|Hv];
    [|destruct (Z.ltb_spec (typical_vol_window cfg) 0) as [Ht|Ht]].
  1,2: destruct (intermediates_Raise close cfg) as [e He]; [lia|];
    assert (Hr : classify_regimes close (Some cfg) = Raise e)
      by (unfold classify_regimes; now rewrite He);
    split; split; try lia; eauto;
    intros [labels Hl]; congruence.
  destruct (intermediates_Ok close cfg Hv Ht) as [im Him].
  pose proof (classify_regimes_unfold _ _ _ Him) as Hu.
  assert (Hok : exists labels, classify_regimes close (Some cfg) = Ok labels)
    by (rewrite Hu; destruct (len close <? min_bars_needed cfg); eauto).
  split; split; try lia; auto.
  intros [e He]. destruct Hok as [labels Hl]. congruence.
Qed.

Lemma classify_raises_iff_witness :
  ((exists e,
       classify_regimes (bars [100]%float) (Some negative_window_config)
       = Raise e)
   <-> -1 < 0 \/ 2 < 0)
  /\ ((exists labels,
          classify_regimes (bars [100]%float) (Some negative_window_config)
          = Ok labels)
      <-> 0 <= -1 /\ 0 <= 2).
Proof.
  apply (classify_raises_iff (bars [100]%float) negative_window_config).
  reflexivity.
Defined.

(** C7 (as stated) fails: a valid configuration and a price series that
    holds a zero and a negative price yield labels, not a failure. *)
Lemma nonpositive_prices_accepted :
  valid_config (small_config 1) = true
  /\ existsb (fun p => p <=? 0)%float [1; 0; -3; 4; 5]%float = true
  /\ classify_regimes (bars [1; 0; -3; 4; 5]%float) (Some (small_config 1))
     = Ok (mkSeries [0; 1; 2; 3; 4]%nat
                    [UNCERTAIN; RANGE; TREND; TREND; RANGE]).
Proof. repeat split; vm_compute; reflexivity. Qed.

(** * The masks *)

Lemma point_label_cases (cfg : RegimeConfig) (v t s th : float) :
  let volatile := (t * vol_mult_high cfg <? v)%float in
  let trend := negb volatile && (th <? abs s)%float in
  let range := negb volatile && (abs s <=? th)%float in
  volatile && trend = false /\ volatile && range = false
  /\ trend && range = false
  /\ (point_label cfg v t s th = VOLATILE <-> volatile = true)
  /\ (point_label cfg v t s th = TREND <-> trend = true)
  /\ (point_label cfg v t s th = RANGE <-> range = true)
  /\ (point_label cfg v t s th = UNCERTAIN
      <-> volatile = false /\ trend = false /\ range = false).
Proof.
  unfold point_label, VOLATILE, TREND, RANGE, UNCERTAIN.
  destruct (t * vol_mult_high cfg <? v)%float; simpl.
  - intuition congruence.
  - destruct (th <? abs s)%float eqn:Egt.
    + rewrite (gt_not_le _ _ Egt). simpl. intuition congruence.
    + destruct (abs s <=? th)%float; simpl; intuition congruence.
Qed.

(** C3.  At every place of a returned label series at most one of the
    three masks holds (the volatile mask excludes the other two, and
    [abs(slope) > threshold] excludes [abs(slope) <= threshold]); the
    place holds one label out of the four, and once the gate has passed
    that label is VOLATILE, TREND or RANGE exactly when the mask of that
    name holds and UNCERTAIN exactly when none does. *)
Theorem masks_exclusive_one_label {I : Type} (close : Series I float)
  (cfg : RegimeConfig) (labels : Series I string) :
  classify_regimes close (Some cfg) = Ok labels ->
  exists im,
    intermediates close cfg = Ok im
    /\ forall i, (i < List.length (values close))%nat ->
       volatile_at im cfg i && trend_at im cfg i = false
       /\ volatile_at im cfg i && range_at im cfg i = false
       /\ trend_at im cfg i && range_at im cfg i = false
       /\ exists l,
            iloc labels i = Some l
            /\ In l regime_labels
            /\ (min_bars_needed cfg <= len close ->
                (l = VOLATILE <-> volatile_at im cfg i = true)
                /\ (l = TREND <-> trend_at im cfg i = true)
                /\ (l = RANGE <-> range_at im cfg i = true)
                /\ (l = UNCERTAIN
                    <-> volatile_at im cfg i = false
                        /\ trend_at im cfg i = false
                        /\ range_at im cfg i = false)).
Proof.
  intros H. destruct (classify_regimes_Ok_inv _ _ _ H) as [im Him].
  exists im. split; [assumption|]. intros i Hi.
  destruct (place_exists _ cfg _ i Him Hi) as (v & t & s & th & Hp).
  destruct (place_masks _ cfg _ _ _ _ _ Hp) as (-> & -> & ->).
  destruct (point_label_cases cfg v t s th)
    as (X1 & X2 & X3 & Lv & Lt & Lr & Lu).
  destruct (classify_regimes_shape _ _ _ H) as (_ & Hn & Hin).
  destruct (iloc_Some labels i) as [l Hl]; [lia|].
  split; [assumption|]. split; [assumption|]. split; [assumption|].
  exists l. split; [assumption|]. split; [eauto|].
  intros Hgate.
  rewrite (classify_regimes_unfold _ _ _ Him) in H.
  destruct (Z.ltb_spec (len close) (min_bars_needed cfg)); [lia|].
  injection H as <-.
  rewrite (place_label _ _ cfg _ _ _ _ _ Hp Hi) in Hl.
  injection Hl as <-. tauto.
Qed.

Lemma masks_exclusive_one_label_witness :
  exists im,
    intermediates (bars [1; 2; 3; 4; 5]%float) (small_config 1) = Ok im
    /\ forall i, (i < 5)%nat ->
       volatile_at im (small_config 1) i && trend_at im (small_config 1) i
       = false
       /\ volatile_at im (small_config 1) i && range_at im (small_config 1) i
          = false
       /\ trend_at im (small_config 1) i && range_at im (small_config 1) i
          = false
       /\ exists l,
            iloc (mkSeries [0; 1; 2; 3; 4]%nat
                    [UNCERTAIN; RANGE; RANGE; RANGE; RANGE]) i = Some l
            /\ In l regime_labels
            /\ (min_bars_needed (small_config 1)
                <= len (bars [1; 2; 3; 4; 5]%float) ->
                (l = VOLATILE <-> volatile_at im (small_config 1) i = true)
                /\ (l = TREND <-> trend_at im (small_config 1) i = true)
                /\ (l = RANGE <-> range_at im (small_config 1) i = true)
                /\ (l = UNCERTAIN
                    <-> volatile_at im (small_config 1) i = false
                        /\ trend_at im (small_config 1) i = false
                        /\ range_at im (small_config 1) i = false)).
Proof.
  apply (masks_exclusive_one_label (bars [1; 2; 3; 4; 5]%float)
           (small_config 1)).
  vm_compute. reflexivity.
Defined.

(** C5.  Past the gate, a place that is not volatile and where
    [abs(slope)] equals the threshold is labelled RANGE: the trend mask
    asks for a strict [>], which fails there, and the range mask for
    [<=], which holds. *)
Theorem threshold_tie_is_range {I : Type} (close : Series I float)
  (cfg : RegimeConfig) (labels : Series I string) (im : Intermediates)
  (i : nat) (s th : float) :
  classify_regimes close (Some cfg) = Ok labels ->
  intermediates close cfg = Ok im ->
  min_bars_needed cfg <= len close ->
  volatile_at im cfg i = false ->
  iloc (i_slope im) i = Some s ->
  iloc (i_threshold im) i = Some th ->
  (abs s =? th)%float = true ->
  iloc labels i = Some RANGE
  /\ trend_at im cfg i = false /\ range_at im cfg i = true.
Proof.
  intros H Him Hgate Hnv Hs Hth Htie.
  assert (Hi : (i < List.length (values close))%nat).
  { destruct (intermediates_length _ _ _ Him) as (_ & _ & <- & _).
    eapply iloc_lt; eauto. }
  destruct (place_exists _ cfg _ i Him Hi) as (v & t & s' & th' & Hp).
  pose proof Hp as [_ _ Hs' Hth'].
  assert (s' = s) by congruence. assert (th' = th) by congruence. subst.
  destruct (place_masks _ cfg _ _ _ _ _ Hp) as (Ev & Et & Er).
  rewrite Ev in Hnv. rewrite Et, Er, Hnv.
  rewrite (eq_le _ _ Htie), (eq_not_gt _ _ Htie). simpl.
  repeat split.
  rewrite (classify_regimes_unfold _ _ _ Him) in H.
  destruct (Z.ltb_spec (len close) (min_bars_needed cfg)); [lia|].
  injection H as <-. rewrite (place_label _ _ cfg _ _ _ _ _ Hp Hi).
  unfold point_label.
  now rewrite Hnv, (eq_le _ _ Htie).
Qed.

Lemma threshold_tie_is_range_witness :
  iloc (mkSeries [0; 1; 2; 3; 4]%nat [UNCERTAIN; RANGE; RANGE; RANGE; RANGE])
       4
  = Some RANGE.
Proof.
  refine (proj1 (threshold_tie_is_range (bars [1; 2; 3; 4; 5]%float)
                   (small_config 1) _ _ 4%nat 1%float 1%float
                   _ _ _ _ _ _ _));
    vm_compute; reflexivity || congruence.
Defined.

(** C6.  A place whose volatility equals the baseline times
    [vol_mult_high] is not in the volatile mask, which asks for a strict
    [>], and its label is not VOLATILE. *)
Theorem volatility_tie_not_volatile {I : Type} (close : Series I float)
  (cfg : RegimeConfig) (labels : Series I string) (im : Intermediates)
  (i : nat) (v t : float) :
  classify_regimes close (Some cfg) = Ok labels ->
  intermediates close cfg = Ok im ->
  iloc (i_vol im) i = Some v ->
  iloc (i_typical_vol im) i = Some t ->
  (v =? t * vol_mult_high cfg)%float = true ->
  volatile_at im cfg i = false /\ iloc labels i <> Some VOLATILE.
Proof.
  intros H Him Hv Ht Htie.
  assert (Hi : (i < List.length (values close))%nat).
  { destruct (intermediates_length _ _ _ Him) as (<- & _).
    eapply iloc_lt; eauto. }
  destruct (place_exists _ cfg _ i Him Hi) as (v' & t' & s & th & Hp).
  pose proof Hp as [Hv' Ht' _ _].
  assert (v' = v) by congruence. assert (t' = t) by congruence. subst.
  destruct (place_masks _ cfg _ _ _ _ _ Hp) as (Ev & _).
  pose proof (eq_not_gt _ _ Htie) as Hng.
  split; [congruence|].
  rewrite (classify_regimes_unfold _ _ _ Him) in H.
  destruct (len close <? min_bars_needed cfg); injection H as <-.
  - rewrite iloc_uncertain_labels by assumption. discriminate.
  - rewrite (place_label _ _ cfg _ _ _ _ _ Hp Hi).
    unfold point_label. rewrite Hng. simpl.
    destruct (abs s <=? th)%float; [discriminate|].
    destruct (th <? abs s)%float; discriminate.
Qed.

Lemma volatility_tie_not_volatile_witness :
  iloc (mkSeries [0; 1; 2; 3; 4]%nat [UNCERTAIN; RANGE; RANGE; RANGE; RANGE])
       3
  <> Some VOLATILE.
Proof.
  refine (proj2 (volatility_tie_not_volatile (bars [7; 7; 7; 7; 7]%float)
                   (small_config 1) _ _ 3%nat 0%float 0%float
                   _ _ _ _ _));
    vm_compute; reflexivity.
Defined.

(** * The slope threshold *)

(** C10.  A strictly negative [slope_threshold] selects the rolling
    median of [abs(slope)] over 200 places, as a zero one does, and the
    call returns what it returns for a zero [slope_threshold]. *)
Theorem negative_threshold_is_auto {I : Type} (close : Series I float)
  (cfg : RegimeConfig) :
  (slope_threshold cfg <? 0)%float = true ->
  (forall slope : Series I float,
      threshold_series close slope cfg
      = pd.rolling 200 pd.median (pd.abs slope)
      /\ threshold_series close slope (with_slope_threshold cfg 0)
         = pd.rolling 200 pd.median (pd.abs slope))
  /\ classify_regimes close (Some cfg)
     = classify_regimes close (Some (with_slope_threshold cfg 0)).
Proof.
  intros Hneg. apply lt_le in Hneg.
  assert (Hth : forall slope : Series I float,
             threshold_series close slope cfg
             = pd.rolling 200 pd.median (pd.abs slope))
    by (intros slope; unfold threshold_series; now rewrite Hneg).
  split; [intros slope; split; [apply Hth | reflexivity]|].
  unfold classify_regimes, intermediates. rewrite Hth.
  reflexivity.
Qed.

Lemma negative_threshold_is_auto_witness :
  classify_regimes (bars [1; 2; 3; 4; 5]%float) (Some (small_config (-1)))
  = classify_regimes (bars [1; 2; 3; 4; 5]%float)
      (Some (with_slope_threshold (small_config (-1)) 0)).
Proof.
  refine (proj2 (negative_threshold_is_auto (bars [1; 2; 3; 4; 5]%float)
                   (small_config (-1)) _)).
  vm_compute. reflexivity.
Defined.

(** * The decision gate *)

(** The function of lines 2-34, taken by itself, is a total function
    of its string: TREND gives a permitted trade of size 1.0, RANGE a
    permitted trade of size 0.5, and every other string, VOLATILE,
    UNCERTAIN and unknown ones alike, gives a refused trade of size 0.0;
    a trade is permitted for TREND and RANGE only. *)
Theorem decision_gate_fail_safe (regime : string) :
  (allow_trade (decision_gate regime) = true
   <-> regime = TREND \/ regime = RANGE)
  /\ (regime = TREND ->
      allow_trade (decision_gate regime) = true
      /\ position_size (decision_gate regime) = 1.0%float)
  /\ (regime = RANGE ->
      allow_trade (decision_gate regime) = true
      /\ position_size (decision_gate regime) = 0.5%float)
  /\ (regime <> TREND -> regime <> RANGE ->
      allow_trade (decision_gate regime) = false
      /\ position_size (decision_gate regime) = 0.0%float).
Proof.
  unfold decision_gate, TREND, RANGE.
  destruct (String.eqb_spec regime "TREND") as [-> | Ht].
  - simpl. repeat split; auto; intros; congruence.
  - destruct (String.eqb_spec regime "RANGE") as [-> | Hr].
    + simpl. repeat split; auto; intros; congruence.
    + destruct (String.eqb regime "VOLATILE"); simpl;
        repeat split; auto; intros; try congruence; tauto.
Qed.

Lemma decision_gate_fail_safe_witness :
  allow_trade (decision_gate "sideways") = false
  /\ position_size (decision_gate "sideways") = 0.0%float.
Proof.
  apply (proj2 (proj2 (proj2 (decision_gate_fail_safe "sideways"))));
    discriminate.
Defined.

(** C8 fails on the file as shipped.  Whatever the string, a call of
    [decision_gate] through its module raises [SyntaxError]: line 1 holds
    a zero-width space, the module does not compile, and no decision is
    ever returned. *)
Theorem shipped_decision_gate_raises (regime : string) :
  shipped_decision_gate regime
  = Raise (SyntaxError "invalid non-printable character U+200B")
  /\ (forall d, shipped_decision_gate regime <> Ok d)
  /\ existsb (Z.eqb zero_width_space) decision_gate_line1 = true.
Proof.
  split; [reflexivity|]. split; [|reflexivity].
  intros d H. discriminate H.
Qed.

(** * Constant prices *)

Section ConstantPrices.

Context {I : Type}.

Lemma firstn_In {A : Type} (n : nat) (l : list A) (x : A) :
  In x (firstn n l) -> In x l.
Proof.
  intros H. rewrite <- (firstn_skipn n l). apply in_or_app. now left.
Qed.

Lemma skipn_In {A : Type} (n : nat) (l : list A) (x : A) :
  In x (skipn n l) -> In x l.
Proof.
  intros H. rewrite <- (firstn_skipn n l). apply in_or_app. now right.
Qed.

Lemma shift_values_In (k : Z) (vals : list float) (x : float) :
  In x (pd.shift_values k vals) -> x = nan \/ In x vals.
Proof.
  unfold pd.shift_values. destruct (0 <=? k); intros H.
  - apply firstn_In, in_app_or in H. destruct H as [H|H]; auto.
    left. now apply repeat_spec in H.
  - apply in_app_or in H. destruct H as [H|H].
    + right. eapply skipn_In; eauto.
    + left. now apply repeat_spec in H.
Qed.

Lemma nth_error_shift_values (k : Z) (vals : list float) (i : nat) :
  0 <= k -> (Z.to_nat k <= i < List.length vals)%nat ->
  nth_error (pd.shift_values k vals) i = nth_error vals (i - Z.to_nat k).
Proof.
  intros Hk Hi. unfold pd.shift_values.
  destruct (Z.leb_spec 0 k); [|lia].
  rewrite nth_error_firstn.
  destruct (Nat.ltb_spec i (List.length vals)); [|lia].
  rewrite nth_error_app2; rewrite repeat_length; [reflexivity|lia].
Qed.

Lemma zip_with_Forall {A B C : Type} (f : A -> B -> C)
  (P : A -> Prop) (Q : B -> Prop) (R : C -> Prop)
  (l1 : list A) (l2 : list B) :
  (forall a b, P a -> Q b -> R (f a b)) ->
  Forall P l1 -> Forall Q l2 -> Forall R (zip_with f l1 l2).
Proof.
  intros Hf H1. revert l2. unfold zip_with.
  induction H1 as [|a l1 Ha H1 IH]; intros l2 H2; simpl; [constructor|].
  destruct H2 as [|b l2 Hb H2]; simpl; constructor; auto.
Qed.

(** Returns of a constant positive series are zeros after a leading NaN. *)
Lemma constant_returns (close : Series I float) (p : float) :
  positive_price p = true ->
  Forall (fun x => x = p) (values close) ->
  Forall zero_or_nan (values (simple_returns close)).
Proof.
  intros Hp Hc. unfold simple_returns, pd.pct_change, szip, pd.shift. simpl.
  apply zip_with_Forall
    with (P := fun x => x = p) (Q := fun y => y = nan \/ y = p); auto.
  - intros a b -> [-> | ->].
    + left. rewrite sub_spec, div_spec.
      change (Prim2SF nan) with S754_nan.
      now destruct (Prim2SF p).
    + rewrite (div_self p Hp). apply zero_or_nan_zero.
  - apply Forall_forall. intros y Hy.
    apply shift_values_In in Hy. destruct Hy as [Hy|Hy]; auto.
    right. rewrite Forall_forall in Hc. auto.
Qed.

Lemma fold_add_zero_or_nan (l : list float) (acc : float) :
  zero_or_nan acc -> Forall zero_or_nan l ->
  zero_or_nan (fold_left PrimFloat.add l acc).
Proof.
  intros Ha Hl. revert acc Ha.
  induction Hl as [|x l Hx Hl IH]; intros acc Ha; simpl; auto.
  apply IH. now apply zero_or_nan_add.
Qed.

Lemma std_zero_or_nan (l : list float) :
  Forall zero_or_nan l -> zero_or_nan (pd.std l).
Proof.
  intros Hl. unfold pd.std.
  apply zero_or_nan_sqrt, zero_or_nan_div.
  apply fold_add_zero_or_nan; [apply zero_or_nan_zero|].
  assert (Hm : zero_or_nan (pd.mean l)).
  { unfold pd.mean. apply zero_or_nan_div.
    apply fold_add_zero_or_nan; [apply zero_or_nan_zero|assumption]. }
  apply Forall_map. eapply Forall_impl; [|exact Hl].
  intros x Hx. simpl. apply zero_or_nan_mul. now apply zero_or_nan_sub.
Qed.

Lemma insert_sorted_Forall (P : float -> Prop) (x : float) (l : list float) :
  P x -> Forall P l -> Forall P (pd.insert_sorted x l).
Proof.
  intros Hx Hl. induction Hl as [|y l Hy Hl IH]; simpl.
  - constructor; auto.
  - destruct (x <=? y)%float; constructor; auto.
Qed.

Lemma sort_Forall (P : float -> Prop) (l : list float) :
  Forall P l -> Forall P (pd.sort l).
Proof.
  intros Hl. unfold pd.sort.
  induction Hl as [|y l Hy Hl IH]; simpl; [constructor|].
  now apply insert_sorted_Forall.
Qed.

Lemma nth_zero_or_nan (l : list float) (k : nat) :
  Forall zero_or_nan l -> zero_or_nan (nth k l nan).
Proof.
  intros Hl. destruct (nth_in_or_default k l nan) as [H | ->].
  - rewrite Forall_forall in Hl. auto.
  - apply zero_or_nan_nan.
Qed.

Lemma median_zero_or_nan (l : list float) :
  Forall zero_or_nan l -> zero_or_nan (pd.median l).
Proof.
  intros Hl. unfold pd.median.
  pose proof (sort_Forall _ _ Hl) as Hs.
  destruct (Nat.even (List.length l)).
  - apply zero_or_nan_div, zero_or_nan_add; now apply nth_zero_or_nan.
  - now apply nth_zero_or_nan.
Qed.

Lemma rolling_at_zero_or_nan (w : nat) (agg : list float -> float)
  (vals : list float) (i : nat) :
  (forall l, Forall zero_or_nan l -> zero_or_nan (agg l)) ->
  Forall zero_or_nan vals ->
  zero_or_nan (pd.rolling_at w agg vals i).
Proof.
  intros Hagg Hv. unfold pd.rolling_at.
  destruct (S i <? w)%nat; [apply zero_or_nan_nan|].
  destruct ((1 <=? w)%nat && _); [|apply zero_or_nan_nan].
  apply Hagg. unfold pd.window_at.
  apply Forall_forall. intros x Hx.
  apply firstn_In, skipn_In in Hx.
  rewrite Forall_forall in Hv. auto.
Qed.

Lemma rolling_zero_or_nan (w : Z) (agg : list float -> float)
  (s r : Series I float) :
  (forall l, Forall zero_or_nan l -> zero_or_nan (agg l)) ->
  Forall zero_or_nan (values s) ->
  pd.rolling w agg s = Ok r ->
  Forall zero_or_nan (values r).
Proof.
  intros Hagg Hs H.
  destruct (Z.ltb_spec w 0) as [Hw|Hw].
  - rewrite rolling_negative in H by assumption. discriminate.
  - rewrite rolling_nonneg in H by assumption. injection H as <-. simpl.
    apply Forall_map, Forall_forall. intros i _.
    now apply rolling_at_zero_or_nan.
Qed.

(** With constant positive prices the volatile mask never holds. *)
Lemma constant_never_volatile (close : Series I float) (cfg : RegimeConfig)
  (im : Intermediates) (p : float) (i : nat) (v t s th : float) :
  positive_price p = true ->
  Forall (fun x => x = p) (values close) ->
  intermediates close cfg = Ok im ->
  Place im i v t s th ->
  (t * vol_mult_high cfg <? v)%float = false.
Proof.
  intros Hp Hc Him [Hv Ht _ _].
  destruct (intermediates_inv _ _ _ Him) as (Rv & Rt & _).
  pose proof (rolling_zero_or_nan _ _ _ _ std_zero_or_nan
                (constant_returns _ _ Hp Hc) Rv) as Fv.
  pose proof (rolling_zero_or_nan _ _ _ _ median_zero_or_nan Fv Rt) as Ft.
  rewrite Forall_forall in Fv, Ft.
  apply zero_or_nan_not_lt.
  - apply zero_or_nan_mul, Ft. eapply nth_error_In; exact Ht.
  - apply Fv. eapply nth_error_In; exact Hv.
Qed.

Lemma skipn_cons_nth {A : Type} (k : nat) (l : list A) (c : A) :
  nth_error l k = Some c -> skipn k l = c :: skipn (S k) l.
Proof.
  revert l. induction k as [|k IH]; intros [|x l] H; simpl in H;
    try discriminate.
  - now injection H as ->.
  - now apply IH.
Qed.

Lemma firstn_skipn_repeat {A : Type} (w : nat) :
  forall (k : nat) (l : list A) (c : A),
    (forall j, (k <= j < k + w)%nat -> nth_error l j = Some c) ->
    firstn w (skipn k l) = repeat c w.
Proof.
  induction w as [|w IH]; intros k l c H; [reflexivity|].
  rewrite (skipn_cons_nth k l c) by (apply H; lia).
  cbn [firstn repeat]. f_equal. apply IH. intros j Hj. apply H. lia.
Qed.

(** Past the trend window the slope of a constant positive series is 0. *)
Lemma constant_slope (close : Series I float) (p : float) (k : Z) (i : nat) :
  positive_price p = true ->
  Forall (fun x => x = p) (values close) ->
  0 < k -> (Z.to_nat k <= i < List.length (values close))%nat ->
  iloc (simple_slope close k) i = Some 0%float.
Proof.
  intros Hp Hc Hk Hi. rewrite Forall_forall in Hc.
  assert (Hat : forall j, (j < List.length (values close))%nat ->
                          nth_error (values close) j = Some p).
  { intros j Hj. destruct (nth_error (values close) j) as [x|] eqn:E.
    - f_equal. apply Hc. eapply nth_error_In; eauto.
    - apply nth_error_None in E. lia. }
  unfold simple_slope. rewrite iloc_smap, iloc_szip.
  unfold iloc at 1. rewrite Hat by lia.
  unfold iloc, pd.shift. simpl values.
  rewrite nth_error_shift_values by lia. rewrite Hat by lia.
  simpl. rewrite (sub_self p Hp), (zero_div_float_of_Z k Hk). reflexivity.
Qed.

(** In auto mode the threshold of a constant positive series is 0 once
    200 slopes are available. *)
Lemma constant_auto_threshold (close th : Series I float)
  (cfg : RegimeConfig) (p : float) (i : nat) :
  positive_price p = true ->
  Forall (fun x => x = p) (values close) ->
  0 < lookback_trend cfg ->
  (slope_threshold cfg <=? 0)%float = true ->
  threshold_series close (simple_slope close (lookback_trend cfg)) cfg
  = Ok th ->
  (Z.to_nat (lookback_trend cfg) + 199 <= i < List.length (values close))%nat ->
  iloc th i = Some 0%float.
Proof.
  intros Hp Hc Hk Hauto Hth Hi. unfold threshold_series in Hth.
  rewrite Hauto in Hth. apply rolling_Ok in Hth.
  destruct Hth as (_ & _ & _ & Hat).
  rewrite Hat
    by (unfold pd.abs, smap; cbn [values];
        rewrite length_map, length_simple_slope; lia).
  f_equal. change (Z.to_nat 200) with 200%nat. unfold pd.rolling_at.
  destruct (Nat.ltb_spec (S i) 200); [lia|].
  unfold pd.window_at.
  rewrite (firstn_skipn_repeat 200 _ _ 0%float).
  - vm_compute. reflexivity.
  - intros j Hj.
    change (nth_error (values (pd.abs ?s)) ?j) with (iloc (pd.abs s) j).
    unfold pd.abs. rewrite iloc_smap.
    rewrite (constant_slope close p) by (auto; lia). reflexivity.
Qed.

End ConstantPrices.

(** C9 (as amended).  For a valid configuration and a constant positive
    price series of at least [min_bars_needed] rows, every place from
    row [min_bars_needed - 1] on at which the slope threshold is defined
    is labelled RANGE: each such place when [slope_threshold] is
    positive, and in auto mode the places from row
    [lookback_trend + 199] on, where 200 slopes are available. *)
Theorem constant_price_is_range {I : Type} (close : Series I float)
  (cfg : RegimeConfig) (p : float) :
  valid_config cfg = true ->
  positive_price p = true ->
  Forall (fun x => x = p) (values close) ->
  min_bars_needed cfg <= len close ->
  exists labels,
    classify_regimes close (Some cfg) = Ok labels
    /\ forall i,
        (i < List.length (values close))%nat ->
        min_bars_needed cfg - 1 <= Z.of_nat i ->
        ((slope_threshold cfg <=? 0)%float = true ->
         lookback_trend cfg + 199 <= Z.of_nat i) ->
        iloc labels i = Some RANGE.
Proof.
  intros Hc Hp Hconst Hgate.
  destruct (valid_config_windows cfg Hc) as (Hv & Hlt & Ht).
  destruct (intermediates_Ok close cfg) as [im Him]; [lia|lia|].
  exists (label_points (uncertain_labels close) im cfg). split.
  - rewrite (classify_regimes_unfold _ _ _ Him).
    destruct (Z.ltb_spec (len close) (min_bars_needed cfg)); [lia|reflexivity].
  - intros i Hi Hpost Hauto.
    assert (Hk : (Z.to_nat (lookback_trend cfg) <= i)%nat)
      by (unfold min_bars_needed in Hpost; lia).
    destruct (place_exists _ cfg _ i Him Hi) as (v & t & s & th & Hpl).
    rewrite (place_label _ _ cfg _ _ _ _ _ Hpl Hi).
    pose proof (constant_never_volatile _ _ _ _ _ _ _ _ _ Hp Hconst Him Hpl)
      as Hnv.
    destruct (intermediates_inv _ _ _ Him) as (_ & _ & Es & Eth).
    pose proof Hpl as [_ _ Hs Hth].
    rewrite Es in Hs, Eth.
    rewrite (constant_slope close p) in Hs by (auto; lia).
    injection Hs as <-.
    assert (Hle : (abs 0 <=? th)%float = true).
    { destruct (slope_threshold cfg <=? 0)%float eqn:Emode.
      - rewrite (constant_auto_threshold close _ cfg p i Hp Hconst Hlt Emode Eth)
          in Hth by (specialize (Hauto eq_refl); lia).
        now injection Hth as <-.
      - unfold threshold_series in Eth. rewrite Emode in Eth.
        injection Eth as Eth. rewrite <- Eth in Hth.
        unfold iloc in Hth. simpl in Hth. rewrite nth_error_map in Hth.
        destruct (nth_error (values close) i); [|discriminate].
        injection Hth as <-.
        unfold valid_config in Hc. rewrite !andb_true_iff in Hc. tauto. }
    unfold point_label. now rewrite Hnv, Hle.
Qed.

Lemma constant_price_is_range_witness :
  exists labels,
    classify_regimes (bars (repeat 7%float 201)) (Some (small_config 0))
    = Ok labels
    /\ forall i,
        (i < 201)%nat ->
        5 - 1 <= Z.of_nat i ->
        ((0 <=? 0)%float = true -> 1 + 199 <= Z.of_nat i) ->
        iloc labels i = Some RANGE.
Proof.
  apply (constant_price_is_range (bars (repeat 7%float 201))
           (small_config 0) 7%float).
  - reflexivity.
  - reflexivity.
  - apply Forall_forall. intros x Hx. now apply repeat_spec in Hx.
  - vm_compute. discriminate.
Defined.

(** C9 (as stated) fails in auto mode, which the defaults select: 141
    equal prices pass the gate of the default configuration, no place
    has the 200 slopes its threshold needs, and row 140 is labelled
    UNCERTAIN, not RANGE. *)
Lemma constant_price_auto_uncertain :
  valid_config default_config = true
  /\ min_bars_needed default_config <= len (bars (repeat 100%float 141))
  /\ classify_regimes (bars (repeat 100%float 141)) (Some default_config)
     = Ok (mkSeries (seq 0 141) (repeat UNCERTAIN 141))
  /\ iloc (mkSeries (seq 0 141) (repeat UNCERTAIN 141)) 140 <> Some RANGE.
Proof.
  split; [reflexivity|]. split; [vm_compute; discriminate|].
  split; [vm_compute; reflexivity|]. vm_compute. discriminate.
Qed.

(** * Places whose volatility is undefined *)

(** C4 fails on the code.  With volatility over 2 returns, a baseline
    over 2 volatilities, a slope over 1 bar and the fixed threshold 1,
    five prices pass the gate; at rows 1 and 2 the volatility or its
    baseline is NaN, the volatile mask is therefore false there, and the
    slope test alone labels them TREND. *)
Lemma undefined_volatility_still_labelled :
  valid_config (small_config 1) = true
  /\ min_bars_needed (small_config 1) <= len (bars [1; 3; 6; 10; 15]%float)
  /\ classify_regimes (bars [1; 3; 6; 10; 15]%float) (Some (small_config 1))
     = Ok (mkSeries [0; 1; 2; 3; 4]%nat
                    [UNCERTAIN; TREND; TREND; TREND; TREND])
  /\ exists im,
       intermediates (bars [1; 3; 6; 10; 15]%float) (small_config 1) = Ok im
       /\ option_map isnan (iloc (i_vol im) 1) = Some true
       /\ option_map isnan (iloc (i_typical_vol im) 1) = Some true
       /\ option_map isnan (iloc (i_typical_vol im) 2) = Some true.
Proof.
  split; [reflexivity|]. split; [vm_compute; discriminate|].
  split; [vm_compute; reflexivity|].
  eexists. split; [vm_compute; reflexivity|].
  repeat split; vm_compute; reflexivity.
Qed.

(** The slope tests, by contrast, do leave such rows alone: a row whose
    slope or threshold is NaN is in neither the trend nor the range
    mask, and past the gate it is labelled UNCERTAIN unless it is
    volatile. *)
Lemma undefined_slope_never_trend_or_range {I : Type}
  (close : Series I float) (cfg : RegimeConfig) (labels : Series I string)
  (im : Intermediates) (i : nat) (v t s th : float) :
  classify_regimes close (Some cfg) = Ok labels ->
  intermediates close cfg = Ok im ->
  Place im i v t s th ->
  isnan s = true \/ isnan th = true ->
  trend_at im cfg i = false /\ range_at im cfg i = false
  /\ (iloc labels i = Some UNCERTAIN \/ iloc labels i = Some VOLATILE).
Proof.
  intros H Him Hp Hnan.
  assert (Hi : (i < List.length (values close))%nat).
  { destruct (intermediates_length _ _ _ Him) as (<- & _).
    destruct Hp as [Hv _ _ _]. eapply iloc_lt; eauto. }
  destruct (place_masks _ cfg _ _ _ _ _ Hp) as (_ & -> & ->).
  destruct (nan_slope_comparisons s th Hnan) as [Hgt Hle].
  rewrite Hgt, Hle, !andb_false_r. repeat split.
  rewrite (classify_regimes_unfold _ _ _ Him) in H.
  destruct (len close <? min_bars_needed cfg); injection H as <-.
  - left. now apply iloc_uncertain_labels.
  - rewrite (place_label _ _ cfg _ _ _ _ _ Hp Hi). unfold point_label.
    rewrite Hgt, Hle, !andb_false_r.
    destruct (t * vol_mult_high cfg <? v)%float; auto.
Qed.

(** * The helpers of the classifier: returns, slope, volatility *)

Lemma nan_intro (x : float) : Prim2SF x = S754_nan -> x = nan.
Proof. intros H. now apply Prim2SF_inj. Qed.

Lemma sub_nan_r (x : float) : (x - nan)%float = nan.
Proof.
  apply nan_intro. rewrite sub_spec. change (Prim2SF nan) with S754_nan.
  now destruct (Prim2SF x).
Qed.

Lemma div_nan_l (y : float) : (nan / y)%float = nan.
Proof.
  apply nan_intro. rewrite div_spec. change (Prim2SF nan) with S754_nan.
  reflexivity.
Qed.

Lemma div_nan_r (x : float) : (x / nan)%float = nan.
Proof.
  apply nan_intro. rewrite div_spec. change (Prim2SF nan) with S754_nan.
  now destruct (Prim2SF x).
Qed.

Lemma sub_nan_l (y : float) : (nan - y)%float = nan.
Proof.
  apply nan_intro. rewrite sub_spec. change (Prim2SF nan) with S754_nan.
  reflexivity.
Qed.

(** [x - x] is a zero, or NaN when [x] is infinite or NaN. *)
Lemma sub_same_zero_or_nan (x : float) : zero_or_nan (x - x)%float.
Proof.
  unfold zero_or_nan. rewrite sub_spec.
  destruct (Prim2SF x) as [[]|[]| |s m e]; simpl; eauto.
  right. exists false. unfold SF64sub, SFsub.
  rewrite Z.min_id, Z.sub_diag. reflexivity.
Qed.

Lemma zero_or_nan_div_zero (x : float) :
  zero_or_nan x -> (x / float_of_Z 0)%float = nan.
Proof.
  intros H. apply nan_intro. rewrite div_spec.
  change (Prim2SF (float_of_Z 0)) with (S754_zero false).
  destruct H as [-> | [s ->]]; reflexivity.
Qed.

Lemma nth_error_shift_values_low (k : Z) (vals : list float) (i : nat) :
  0 <= k -> (i < Z.to_nat k)%nat -> (i < List.length vals)%nat ->
  nth_error (pd.shift_values k vals) i = Some nan.
Proof.
  intros Hk Hi Hn. unfold pd.shift_values.
  destruct (Z.leb_spec 0 k); [|lia].
  rewrite nth_error_firstn.
  destruct (Nat.ltb_spec i (List.length vals)); [|lia].
  rewrite nth_error_app1 by (rewrite repeat_length; lia).
  now apply nth_error_repeat.
Qed.

Lemma simple_returns_first {I : Type} (close : Series I float) (p : float) :
  iloc close 0 = Some p -> iloc (simple_returns close) 0 = Some nan.
Proof.
  intros Hp. unfold simple_returns, pd.pct_change. rewrite iloc_szip, Hp.
  unfold iloc, pd.shift. simpl values.
  rewrite nth_error_shift_values_low; try lia.
  - now rewrite div_nan_r, sub_nan_l.
  - apply iloc_lt in Hp. exact Hp.
Qed.

Lemma simple_returns_next {I : Type} (close : Series I float) (t : nat)
  (prev cur : float) :
  iloc close t = Some prev -> iloc close (S t) = Some cur ->
  iloc (simple_returns close) (S t) = Some (cur / prev - 1)%float.
Proof.
  intros Hprev Hcur. unfold simple_returns, pd.pct_change.
  rewrite iloc_szip, Hcur. unfold iloc, pd.shift. simpl values.
  rewrite nth_error_shift_values;
    [|lia|apply iloc_lt in Hcur; change (Z.to_nat 1) with 1%nat; lia].
  change (Z.to_nat 1) with 1%nat.
  replace (S t - 1)%nat with t by lia.
  unfold iloc in Hprev. now rewrite Hprev.
Qed.

(** X1.  [simple_returns] keeps the index and the number of rows; its
    first row is NaN, and every later row [t] holds
    [close[t] / close[t-1] - 1]. *)
Theorem simple_returns_rows {I : Type} (close : Series I float) :
  index (simple_returns close) = index close
  /\ List.length (values (simple_returns close)) = List.length (values close)
  /\ (forall p, iloc close 0 = Some p ->
                iloc (simple_returns close) 0 = Some nan)
  /\ (forall t prev cur,
         iloc close t = Some prev -> iloc close (S t) = Some cur ->
         iloc (simple_returns close) (S t) = Some (cur / prev - 1)%float).
Proof.
  split; [reflexivity|]. split; [apply length_simple_returns|]. split.
  - apply simple_returns_first.
  - apply simple_returns_next.
Qed.

Lemma simple_returns_rows_witness :
  iloc (simple_returns (bars [100; 105; 84]%float)) 2
  = Some (84 / 105 - 1)%float.
Proof.
  apply (proj2 (proj2 (proj2 (simple_returns_rows (bars [100; 105; 84]%float))))
           1%nat); reflexivity.
Defined.

(** X2.  Two equal consecutive positive prices give a return of exactly
    0: the division leaves no rounding residue. *)
Theorem simple_returns_flat {I : Type} (close : Series I float) (t : nat)
  (p : float) :
  positive_price p = true ->
  iloc close t = Some p -> iloc close (S t) = Some p ->
  iloc (simple_returns close) (S t) = Some 0%float.
Proof.
  intros Hp H0 H1.
  rewrite (simple_returns_next close t p p H0 H1), (div_self p Hp).
  reflexivity.
Qed.

Lemma simple_returns_flat_witness :
  iloc (simple_returns
          (bars [3; 0x1.999999999999ap-4; 0x1.999999999999ap-4]%float)) 2
  = Some 0%float.
Proof.
  apply (simple_returns_flat
           (bars [3; 0x1.999999999999ap-4; 0x1.999999999999ap-4]%float)
           1 0x1.999999999999ap-4%float);
    reflexivity.
Defined.

Lemma simple_slope_low {I : Type} (close : Series I float) (k : Z) (t : nat) :
  0 <= k -> (t < Z.to_nat k)%nat -> (t < List.length (values close))%nat ->
  iloc (simple_slope close k) t = Some nan.
Proof.
  intros Hk Ht Hn. unfold simple_slope. rewrite iloc_smap, iloc_szip.
  destruct (iloc_Some close t Hn) as [cur ->].
  unfold iloc, pd.shift. simpl values.
  rewrite nth_error_shift_values_low by assumption.
  simpl. now rewrite sub_nan_r, div_nan_l.
Qed.

Lemma simple_slope_at {I : Type} (close : Series I float) (k : Z) (t : nat)
  (old cur : float) :
  0 <= k -> (Z.to_nat k <= t)%nat ->
  iloc close (t - Z.to_nat k) = Some old -> iloc close t = Some cur ->
  iloc (simple_slope close k) t = Some ((cur - old) / float_of_Z k)%float.
Proof.
  intros Hk Ht Hold Hcur. unfold simple_slope.
  rewrite iloc_smap, iloc_szip, Hcur.
  unfold iloc, pd.shift. simpl values.
  rewrite nth_error_shift_values
    by (try assumption; apply iloc_lt in Hcur; lia).
  unfold iloc in Hold. now rewrite Hold.
Qed.

Lemma simple_slope_zero {I : Type} (close : Series I float) (t : nat) :
  (t < List.length (values close))%nat ->
  iloc (simple_slope close 0) t = Some nan.
Proof.
  intros Ht. destruct (iloc_Some close t Ht) as [cur Hcur].
  rewrite (simple_slope_at close 0 t cur cur); try lia; try assumption.
  - f_equal. apply zero_or_nan_div_zero, sub_same_zero_or_nan.
  - change (Z.to_nat 0) with 0%nat. now rewrite Nat.sub_0_r.
Qed.



(** X4.  With a lookback of 0 the slope series is NaN throughout,
    whatever the prices: the difference [close - close] is divided by
    [float(0)]. *)
Theorem simple_slope_zero_lookback {I : Type} (close : Series I float) :
  values (simple_slope close 0)
  = repeat nan (List.length (values close)).
Proof.
  apply nth_error_ext. intros t.
  destruct (Nat.ltb_spec t (List.length (values close))) as [Ht|Ht].
  - rewrite nth_error_repeat by assumption.
    exact (simple_slope_zero close t Ht).
  - rewrite (proj2 (nth_error_None _ _))
      by (rewrite length_simple_slope; exact Ht).
    symmetry. apply nth_error_None. now rewrite repeat_length.
Qed.

(** ** Rows a roller leaves undefined *)

Lemma forallb_isfinite_nan (l : list float) (j : nat) :
  nth_error l j = Some nan -> forallb isfinite l = false.
Proof.
  intros H. destruct (forallb isfinite l) eqn:E; [|reflexivity].
  rewrite forallb_forall in E. apply nth_error_In in H.
  specialize (E nan H). discriminate E.
Qed.

Lemma rolling_at_short (w : nat) (agg : list float -> float)
  (vals : list float) (i : nat) :
  (S i < w)%nat -> pd.rolling_at w agg vals i = nan.
Proof.
  intros H. unfold pd.rolling_at.
  now destruct (Nat.ltb_spec (S i) w); [|lia].
Qed.

Lemma rolling_at_nan_inside (w : nat) (agg : list float -> float)
  (vals : list float) (i j : nat) :
  (S i - w <= j <= i)%nat -> nth_error vals j = Some nan ->
  pd.rolling_at w agg vals i = nan.
Proof.
  intros Hj Hnan. unfold pd.rolling_at.
  destruct (S i <? w)%nat; [reflexivity|].
  destruct (Nat.leb_spec 1 w); [|reflexivity]. simpl.
  rewrite (forallb_isfinite_nan _ (j - (S i - w))); [reflexivity|].
  unfold pd.window_at.
  rewrite nth_error_firstn.
  destruct (Nat.ltb_spec (j - (S i - w)) w); [|lia].
  rewrite nth_error_skipn. rewrite <- Hnan. f_equal. lia.
Qed.

(** A roller over a series whose first [k] rows are NaN yields NaN on
    its first [k + w - 1] rows. *)
Lemma rolling_low (w : Z) (agg : list float -> float) (k : nat)
  {I : Type} (s r : Series I float) (i : nat) :
  pd.rolling w agg s = Ok r ->
  (forall j, (j < k)%nat -> (j < List.length (values s))%nat ->
             iloc s j = Some nan) ->
  (i < List.length (values s))%nat ->
  (S i < k + Z.to_nat w)%nat ->
  iloc r i = Some nan.
Proof.
  intros Hr Hlow Hi Hik. apply rolling_Ok in Hr.
  destruct Hr as (Hw & _ & _ & Hat). rewrite (Hat i Hi). f_equal.
  destruct (Nat.ltb_spec (S i) (Z.to_nat w)) as [Hs|Hs].
  - now apply rolling_at_short.
  - destruct (Nat.eq_dec (Z.to_nat w) 0) as [E|E].
    + rewrite E. unfold pd.rolling_at. reflexivity.
    + apply (rolling_at_nan_inside _ _ _ _ (S i - Z.to_nat w)); [lia|].
      apply Hlow; lia.
Qed.

(** The volatility is NaN on the first [lookback_vol] rows and its
    baseline on the first [lookback_vol + typical_vol_window - 1]. *)
Lemma vol_low {I : Type} (close vol : Series I float) (w : Z) (i : nat) :
  rolling_volatility (simple_returns close) w = Ok vol ->
  (i < List.length (values close))%nat -> (i < Z.to_nat w)%nat ->
  iloc vol i = Some nan.
Proof.
  intros Hv Hi Hw. unfold rolling_volatility in Hv.
  apply (rolling_low w pd.std 1 _ _ i Hv);
    rewrite ?length_simple_returns; try lia.
  intros j Hj Hn. replace j with 0%nat by lia.
  destruct (iloc_Some close 0) as [p Hp]; [lia|].
  exact (simple_returns_first close p Hp).
Qed.

Lemma typical_vol_low {I : Type} (close : Series I float) (cfg : RegimeConfig)
  (im : Intermediates) (i : nat) :
  intermediates close cfg = Ok im ->
  (i < List.length (values close))%nat ->
  Z.of_nat i < lookback_vol cfg + typical_vol_window cfg - 1 ->
  iloc (i_typical_vol im) i = Some nan.
Proof.
  intros Him Hi Hlow.
  destruct (intermediates_length _ _ _ Him) as (Lv & _).
  destruct (intermediates_inv _ _ _ Him) as (Hv & Ht & _).
  pose proof (rolling_Ok _ _ _ _ Hv) as (Hv0 & _).
  pose proof (rolling_Ok _ _ _ _ Ht) as (Ht0 & _).
  apply (rolling_low _ pd.median (Z.to_nat (lookback_vol cfg)) _ _ i Ht);
    rewrite ?Lv; try lia.
  intros j Hj Hn. now apply (vol_low close _ (lookback_vol cfg)).
Qed.

Lemma slope_low {I : Type} (close : Series I float) (cfg : RegimeConfig)
  (im : Intermediates) (i : nat) :
  intermediates close cfg = Ok im ->
  (i < List.length (values close))%nat ->
  Z.of_nat i < lookback_trend cfg ->
  iloc (i_slope im) i = Some nan.
Proof.
  intros Him Hi Hlow.
  destruct (intermediates_inv _ _ _ Him) as (_ & _ & -> & _).
  apply simple_slope_low; lia.
Qed.

(** In auto mode the threshold is NaN until 200 slopes exist. *)
Lemma auto_threshold_low {I : Type} (close : Series I float)
  (cfg : RegimeConfig) (im : Intermediates) (i : nat) :
  intermediates close cfg = Ok im ->
  (slope_threshold cfg <=? 0)%float = true ->
  0 <= lookback_trend cfg ->
  (i < List.length (values close))%nat ->
  Z.of_nat i < lookback_trend cfg + 199 ->
  iloc (i_threshold im) i = Some nan.
Proof.
  intros Him Hauto Hk Hi Hlow.
  destruct (intermediates_length _ _ _ Him) as (_ & _ & Ls & _).
  destruct (intermediates_inv _ _ _ Him) as (_ & _ & Es & Eth).
  unfold threshold_series in Eth. rewrite Hauto in Eth.
  apply (rolling_low 200 pd.median (Z.to_nat (lookback_trend cfg)) _ _ i Eth).
  - intros j Hj Hn. unfold pd.abs. rewrite iloc_smap.
    unfold pd.abs, smap in Hn. cbn [values] in Hn.
    rewrite length_map, Ls in Hn.
    rewrite (slope_low close cfg im j Him) by lia. reflexivity.
  - unfold pd.abs, smap. cbn [values]. rewrite length_map. lia.
  - change (Z.to_nat 200) with 200%nat. lia.
Qed.

Lemma nan_not_lt (v : float) : (nan <? v)%float = false.
Proof. rewrite ltb_spec. reflexivity. Qed.

Lemma mul_nan_l (m : float) : (nan * m)%float = nan.
Proof.
  apply nan_intro. rewrite mul_spec. change (Prim2SF nan) with S754_nan.
  reflexivity.
Qed.

(** The label of a row, from the four values the row holds. *)
Lemma classify_row {I : Type} (close : Series I float) (cfg : RegimeConfig)
  (labels : Series I string) (im : Intermediates) (i : nat)
  (v t s th : float) :
  classify_regimes close (Some cfg) = Ok labels ->
  intermediates close cfg = Ok im ->
  Place im i v t s th ->
  iloc labels i
  = Some (if len close <? min_bars_needed cfg then UNCERTAIN
          else point_label cfg v t s th).
Proof.
  intros H Him Hp.
  assert (Hi : (i < List.length (values close))%nat).
  { destruct (intermediates_length _ _ _ Him) as (<- & _).
    destruct Hp as [Hv _ _ _]. eapply iloc_lt; eauto. }
  rewrite (classify_regimes_unfold _ _ _ Him) in H.
  destruct (len close <? min_bars_needed cfg); injection H as <-.
  - now apply iloc_uncertain_labels.
  - now apply place_label.
Qed.

Lemma classify_row_outside {I : Type} (close : Series I float)
  (cfg : RegimeConfig) (labels : Series I string) (i : nat) :
  classify_regimes close (Some cfg) = Ok labels ->
  (List.length (values close) <= i)%nat ->
  iloc labels i = None.
Proof.
  intros H Hi. destruct (classify_regimes_shape _ _ _ H) as (_ & Hn & _).
  apply nth_error_None. lia.
Qed.

Lemma point_label_nan_baseline (cfg : RegimeConfig) (v s th : float) :
  point_label cfg v nan s th <> VOLATILE.
Proof.
  unfold point_label. rewrite mul_nan_l, nan_not_lt. simpl.
  destruct (abs s <=? th)%float; [discriminate|].
  destruct (th <? abs s)%float; discriminate.
Qed.

Lemma point_label_nan_slope (cfg : RegimeConfig) (v t s th : float) :
  isnan s = true \/ isnan th = true ->
  point_label cfg v t s th <> TREND /\ point_label cfg v t s th <> RANGE.
Proof.
  intros Hnan. destruct (nan_slope_comparisons s th Hnan) as [Hgt Hle].
  unfold point_label. rewrite Hgt, Hle, !andb_false_r.
  destruct (t * vol_mult_high cfg <? v)%float; split; discriminate.
Qed.

(** ** Rows the classifier cannot yet judge *)

(** X5.  The volatility of the returns keeps the index and the number
    of rows of the prices, and its first [window] rows are NaN: row 0
    has no return, so [window] returns exist from row [window] on. *)
Theorem volatility_warm_up {I : Type} (close vol : Series I float) (w : Z) :
  rolling_volatility (simple_returns close) w = Ok vol ->
  index vol = index close
  /\ List.length (values vol) = List.length (values close)
  /\ forall i, (i < Z.to_nat w)%nat -> (i < List.length (values close))%nat ->
               iloc vol i = Some nan.
Proof.
  intros H. pose proof H as H'. unfold rolling_volatility in H'.
  apply rolling_Ok in H'. destruct H' as (_ & Hx & Hn & _).
  rewrite length_simple_returns in Hn.
  repeat split; auto.
  intros i Hw Hi. now apply (vol_low close vol w).
Qed.

Lemma volatility_warm_up_witness :
  exists vol,
    rolling_volatility (simple_returns (bars [1; 2; 4; 6; 9]%float)) 2 = Ok vol
    /\ forall i, (i < 2)%nat -> (i < 5)%nat -> iloc vol i = Some nan.
Proof.
  eexists. split.
  - vm_compute. reflexivity.
  - refine (proj2 (proj2 (volatility_warm_up (bars [1; 2; 4; 6; 9]%float)
                            _ 2 _))).
    vm_compute. reflexivity.
Defined.

(** X6.  No row before row [lookback_vol + typical_vol_window - 1] is
    ever labelled VOLATILE: the baseline is NaN there, and a comparison
    with NaN is false. *)
Theorem no_volatile_before_baseline {I : Type} (close : Series I float)
  (cfg : RegimeConfig) (labels : Series I string) (i : nat) :
  classify_regimes close (Some cfg) = Ok labels ->
  Z.of_nat i < lookback_vol cfg + typical_vol_window cfg - 1 ->
  iloc labels i <> Some VOLATILE.
Proof.
  intros H Hlow. destruct (classify_regimes_Ok_inv _ _ _ H) as [im Him].
  destruct (Nat.ltb_spec i (List.length (values close))) as [Hi|Hi].
  - destruct (place_exists _ cfg _ i Him Hi) as (v & t & s & th & Hp).
    rewrite (classify_row _ _ _ _ _ _ _ _ _ H Him Hp).
    pose proof Hp as [_ Ht _ _].
    rewrite (typical_vol_low close cfg im i Him Hi Hlow) in Ht.
    injection Ht as <-.
    destruct (len close <? min_bars_needed cfg); [discriminate|].
    intros E. injection E as E. now apply point_label_nan_baseline in E.
  - now rewrite (classify_row_outside _ _ _ _ H Hi).
Qed.

Lemma no_volatile_before_baseline_witness :
  iloc (mkSeries [0; 1; 2; 3; 4]%nat [UNCERTAIN; TREND; TREND; TREND; TREND])
       2
  <> Some VOLATILE.
Proof.
  apply (no_volatile_before_baseline (bars [1; 3; 6; 10; 15]%float)
           (small_config 1) _ 2%nat).
  - vm_compute. reflexivity.
  - reflexivity.
Defined.

(** X7.  No row before row [lookback_trend] is ever labelled TREND or
    RANGE: the slope is NaN there. *)
Theorem no_trend_or_range_before_slope {I : Type} (close : Series I float)
  (cfg : RegimeConfig) (labels : Series I string) (i : nat) :
  classify_regimes close (Some cfg) = Ok labels ->
  Z.of_nat i < lookback_trend cfg ->
  iloc labels i <> Some TREND /\ iloc labels i <> Some RANGE.
Proof.
  intros H Hlow. destruct (classify_regimes_Ok_inv _ _ _ H) as [im Him].
  destruct (Nat.ltb_spec i (List.length (values close))) as [Hi|Hi].
  - destruct (place_exists _ cfg _ i Him Hi) as (v & t & s & th & Hp).
    rewrite (classify_row _ _ _ _ _ _ _ _ _ H Him Hp).
    pose proof Hp as [_ _ Hs _].
    rewrite (slope_low close cfg im i Him Hi Hlow) in Hs.
    injection Hs as <-.
    destruct (len close <? min_bars_needed cfg); [split; discriminate|].
    destruct (point_label_nan_slope cfg v t nan th) as [Nt Nr]; [now left|].
    split; intros E; injection E as E; auto.
  - rewrite (classify_row_outside _ _ _ _ H Hi). split; discriminate.
Qed.

Lemma no_trend_or_range_before_slope_witness :
  iloc (mkSeries [0; 1; 2; 3; 4]%nat [UNCERTAIN; TREND; TREND; TREND; TREND])
       0
  <> Some TREND
  /\ iloc (mkSeries [0; 1; 2; 3; 4]%nat
             [UNCERTAIN; TREND; TREND; TREND; TREND]) 0
     <> Some RANGE.
Proof.
  apply (no_trend_or_range_before_slope (bars [1; 3; 6; 10; 15]%float)
           (small_config 1) _ 0%nat).
  - vm_compute. reflexivity.
  - reflexivity.
Defined.

(** X8.  Whatever the length of the series, a row that lies before row
    [lookback_trend] and before row
    [lookback_vol + typical_vol_window - 1] is labelled UNCERTAIN. *)
Theorem early_rows_uncertain {I : Type} (close : Series I float)
  (cfg : RegimeConfig) (labels : Series I string) (i : nat) :
  classify_regimes close (Some cfg) = Ok labels ->
  (i < List.length (values close))%nat ->
  Z.of_nat i < lookback_trend cfg ->
  Z.of_nat i < lookback_vol cfg + typical_vol_window cfg - 1 ->
  iloc labels i = Some UNCERTAIN.
Proof.
  intros H Hi Hs Hv. destruct (classify_regimes_Ok_inv _ _ _ H) as [im Him].
  destruct (place_exists _ cfg _ i Him Hi) as (v & t & s & th & Hp).
  rewrite (classify_row _ _ _ _ _ _ _ _ _ H Him Hp). f_equal.
  destruct (len close <? min_bars_needed cfg); [reflexivity|].
  pose proof Hp as [_ Ht Hsl _].
  rewrite (typical_vol_low close cfg im i Him Hi Hv) in Ht.
  rewrite (slope_low close cfg im i Him Hi Hs) in Hsl.
  injection Ht as <-. injection Hsl as <-.
  destruct (nan_slope_comparisons nan th) as [Hgt Hle]; [now left|].
  unfold point_label. rewrite mul_nan_l, nan_not_lt, Hgt, Hle. reflexivity.
Qed.

Lemma early_rows_uncertain_witness :
  iloc (mkSeries [0; 1; 2; 3; 4; 5]%nat
          [UNCERTAIN; UNCERTAIN; TREND; TREND; TREND; TREND]) 1
  = Some UNCERTAIN.
Proof.
  apply (early_rows_uncertain (bars [1; 3; 6; 7; 15; 25]%float)
           {| lookback_vol := 2; lookback_trend := 2;
              typical_vol_window := 2; vol_mult_high := 1.5;
              slope_threshold := 1 |} _ 1%nat).
  - vm_compute. reflexivity.
  - simpl. lia.
  - reflexivity.
  - reflexivity.
Defined.

(** X9.  With [lookback_trend = 0] no row is ever labelled TREND or
    RANGE: every slope is NaN, and each row is UNCERTAIN or VOLATILE. *)
Theorem zero_lookback_trend_no_trend {I : Type} (close : Series I float)
  (cfg : RegimeConfig) (labels : Series I string) (i : nat) (l : string) :
  classify_regimes close (Some cfg) = Ok labels ->
  lookback_trend cfg = 0 ->
  iloc labels i = Some l ->
  l = UNCERTAIN \/ l = VOLATILE.
Proof.
  intros H Hz Hl. destruct (classify_regimes_Ok_inv _ _ _ H) as [im Him].
  assert (Hi : (i < List.length (values close))%nat).
  { destruct (classify_regimes_shape _ _ _ H) as (_ & <- & _).
    eapply iloc_lt; eauto. }
  destruct (place_exists _ cfg _ i Him Hi) as (v & t & s & th & Hp).
  rewrite (classify_row _ _ _ _ _ _ _ _ _ H Him Hp) in Hl.
  injection Hl as <-.
  destruct (len close <? min_bars_needed cfg); [now left|].
  pose proof Hp as [_ _ Hs _].
  destruct (intermediates_inv _ _ _ Him) as (_ & _ & Es & _).
  rewrite Es, Hz, (simple_slope_zero close i Hi) in Hs. injection Hs as <-.
  destruct (nan_slope_comparisons nan th) as [Hgt Hle]; [now left|].
  unfold point_label. rewrite Hgt, Hle, !andb_false_r.
  destruct (t * vol_mult_high cfg <? v)%float; auto.
Qed.

Lemma zero_lookback_trend_no_trend_witness :
  UNCERTAIN = UNCERTAIN \/ UNCERTAIN = VOLATILE.
Proof.
  apply (zero_lookback_trend_no_trend (bars [1; 3; 6; 10; 15]%float)
           {| lookback_vol := 2; lookback_trend := 0;
              typical_vol_window := 2; vol_mult_high := 1.5;
              slope_threshold := 1 |}
           (mkSeries [0; 1; 2; 3; 4]%nat
              [UNCERTAIN; UNCERTAIN; UNCERTAIN; UNCERTAIN; UNCERTAIN])
           4%nat UNCERTAIN).
  - vm_compute. reflexivity.
  - reflexivity.
  - reflexivity.
Defined.

(** X10.  In auto mode ([slope_threshold <= 0], the default) no row
    before row [lookback_trend + 199] is ever labelled TREND or RANGE:
    the rolling median over 200 slopes is NaN until 200 slopes exist. *)
Theorem auto_threshold_warm_up {I : Type} (close : Series I float)
  (cfg : RegimeConfig) (labels : Series I string) (i : nat) :
  classify_regimes close (Some cfg) = Ok labels ->
  (slope_threshold cfg <=? 0)%float = true ->
  0 <= lookback_trend cfg ->
  Z.of_nat i < lookback_trend cfg + 199 ->
  iloc labels i <> Some TREND /\ iloc labels i <> Some RANGE.
Proof.
  intros H Hauto Hk Hlow. destruct (classify_regimes_Ok_inv _ _ _ H) as [im Him].
  destruct (Nat.ltb_spec i (List.length (values close))) as [Hi|Hi].
  - destruct (place_exists _ cfg _ i Him Hi) as (v & t & s & th & Hp).
    rewrite (classify_row _ _ _ _ _ _ _ _ _ H Him Hp).
    pose proof Hp as [_ _ _ Hth].
    rewrite (auto_threshold_low close cfg im i Him Hauto Hk Hi Hlow) in Hth.
    injection Hth as <-.
    destruct (len close <? min_bars_needed cfg); [split; discriminate|].
    destruct (point_label_nan_slope cfg v t s nan) as [Nt Nr]; [now right|].
    split; intros E; injection E as E; auto.
  - rewrite (classify_row_outside _ _ _ _ H Hi). split; discriminate.
Qed.

Lemma auto_threshold_warm_up_witness :
  iloc (mkSeries (seq 0 141) (repeat UNCERTAIN 141)) 140 <> Some TREND
  /\ iloc (mkSeries (seq 0 141) (repeat UNCERTAIN 141)) 140 <> Some RANGE.
Proof.
  apply (auto_threshold_warm_up (bars (repeat 100%float 141)) default_config
           _ 140%nat).
  - vm_compute. reflexivity.
  - reflexivity.
  - vm_compute. discriminate.
  - reflexivity.
Defined.

(** ** What the labels depend on *)

Lemma intermediates_with_threshold {I : Type} (close : Series I float)
  (cfg : RegimeConfig) (th : float) (im im' : Intermediates) :
  intermediates close cfg = Ok im ->
  intermediates close (with_slope_threshold cfg th) = Ok im' ->
  i_vol im' = i_vol im /\ i_typical_vol im' = i_typical_vol im
  /\ i_slope im' = i_slope im.
Proof.
  intros H H'.
  destruct (intermediates_inv _ _ _ H) as (Hv & Ht & Hs & _).
  destruct (intermediates_inv _ _ _ H') as (Hv' & Ht' & Hs' & _).
  cbn [with_slope_threshold lookback_vol lookback_trend typical_vol_window]
    in Hv', Ht', Hs'.
  assert (Ev : i_vol im' = i_vol im) by congruence.
  rewrite Ev in Ht'. repeat split; congruence.
Qed.

(** X11.  Which rows are labelled VOLATILE does not depend on
    [slope_threshold]: two calls that differ in it alone mark the same
    rows VOLATILE. *)
Theorem volatile_rows_ignore_threshold {I : Type} (close : Series I float)
  (cfg : RegimeConfig) (th : float) (labels labels' : Series I string)
  (i : nat) :
  classify_regimes close (Some cfg) = Ok labels ->
  classify_regimes close (Some (with_slope_threshold cfg th)) = Ok labels' ->
  (iloc labels i = Some VOLATILE <-> iloc labels' i = Some VOLATILE).
Proof.
  intros H H'.
  destruct (classify_regimes_Ok_inv _ _ _ H) as [im Him].
  destruct (classify_regimes_Ok_inv _ _ _ H') as [im' Him'].
  destruct (Nat.ltb_spec i (List.length (values close))) as [Hi|Hi].
  - destruct (place_exists _ _ _ i Him Hi) as (v & t & s & x & Hp).
    destruct (place_exists _ _ _ i Him' Hi) as (v' & t' & s' & x' & Hp').
    destruct (intermediates_with_threshold _ _ _ _ _ Him Him')
      as (Ev & Et & _).
    pose proof Hp as [Hv Ht _ _]. pose proof Hp' as [Hv' Ht' _ _].
    rewrite Ev in Hv'. rewrite Et in Ht'.
    assert (v' = v) by congruence. assert (t' = t) by congruence. subst.
    rewrite (classify_row _ _ _ _ _ _ _ _ _ H Him Hp).
    rewrite (classify_row _ _ _ _ _ _ _ _ _ H' Him' Hp').
    change (min_bars_needed (with_slope_threshold cfg th))
      with (min_bars_needed cfg).
    destruct (len close <? min_bars_needed cfg); [tauto|].
    destruct (point_label_cases cfg v t s x) as (_ & _ & _ & L & _).
    destruct (point_label_cases (with_slope_threshold cfg th) v t s' x')
      as (_ & _ & _ & L' & _).
    cbn [with_slope_threshold vol_mult_high] in L'.
    split; intros E; injection E as E; f_equal; tauto.
  - rewrite (classify_row_outside _ _ _ _ H Hi).
    rewrite (classify_row_outside _ _ _ _ H' Hi). tauto.
Qed.

Lemma volatile_rows_ignore_threshold_witness :
  iloc (mkSeries [0; 1; 2; 3; 4; 5; 6]%nat
          [UNCERTAIN; RANGE; RANGE; RANGE; RANGE; VOLATILE; RANGE]) 5
  = Some VOLATILE
  <-> iloc (mkSeries [0; 1; 2; 3; 4; 5; 6]%nat
              [UNCERTAIN; TREND; TREND; TREND; TREND; VOLATILE; TREND]) 5
      = Some VOLATILE.
Proof.
  apply (volatile_rows_ignore_threshold
           (bars [100; 101; 102; 103; 104; 150; 151]%float)
           (small_config 100) 0.5%float).
  - vm_compute. reflexivity.
  - vm_compute. reflexivity.
Defined.

(** X12.  The labels depend on the prices alone, not on the index: two
    series with the same values, whatever their indices, get the same
    labels, or the same failure. *)
Theorem labels_ignore_index {I J : Type} (close1 : Series I float)
  (close2 : Series J float) (cfg : option RegimeConfig) :
  values close1 = values close2 ->
  match classify_regimes close1 cfg, classify_regimes close2 cfg with
  | Ok labels1, Ok labels2 => values labels1 = values labels2
  | Raise e1, Raise e2 => e1 = e2
  | _, _ => False
  end.
Proof.
  destruct close1 as [ix1 v1], close2 as [ix2 v2]. simpl. intros <-.
  unfold classify_regimes, intermediates, rolling_volatility,
    threshold_series, pd.rolling, simple_returns, simple_slope,
    pd.pct_change, pd.abs, pd.shift, szip, smap, len.
  cbn [values index].
  repeat match goal with
         | |- context [pd.rolling_values ?w ?a ?l] =>
             destruct (pd.rolling_values w a l); cbn; [|reflexivity]
         | |- context [(?a <=? 0)%float] => destruct (a <=? 0)%float; cbn
         | |- context [?a <? ?b] => destruct (a <? b); cbn
         end; reflexivity.
Qed.

Lemma labels_ignore_index_witness :
  values (mkSeries [0; 1; 2; 3; 4]%nat
            [UNCERTAIN; TREND; TREND; TREND; TREND])
  = values (mkSeries ["mon"; "tue"; "wed"; "thu"; "fri"]%string
              [UNCERTAIN; TREND; TREND; TREND; TREND]).
Proof.
  exact (labels_ignore_index (bars [1; 3; 6; 10; 15]%float)
           (mkSeries ["mon"; "tue"; "wed"; "thu"; "fri"]%string
                     [1; 3; 6; 10; 15]%float)
           (Some (small_config 1)) eq_refl).
Defined.

(** * The decision gate and the classifier together *)

Lemma decision_gate_allows (regime : string) :
  allow_trade (decision_gate regime) = true ->
  regime = TREND \/ regime = RANGE.
Proof.
  unfold decision_gate, TREND, RANGE.
  destruct (String.eqb_spec regime "TREND"); [auto|].
  destruct (String.eqb_spec regime "RANGE"); [auto|].
  destruct (String.eqb regime "VOLATILE"); discriminate.
Qed.

(** X13.  The size and the permission of a decision agree: the size is
    positive exactly when the trade is permitted, and it always lies
    between 0 and 1. *)
Theorem decision_size_consistent (regime : string) :
  (allow_trade (decision_gate regime) = true
   <-> (0 <? position_size (decision_gate regime))%float = true)
  /\ (0 <=? position_size (decision_gate regime))%float = true
  /\ (position_size (decision_gate regime) <=? 1)%float = true.
Proof.
  unfold decision_gate.
  destruct (String.eqb regime "TREND"); [now repeat split|].
  destruct (String.eqb regime "RANGE"); [now repeat split|].
  destruct (String.eqb regime "VOLATILE"); now repeat split.
Qed.

(** X14.  A trade is permitted only at a judged row: when the decision
    for the label of a row permits the trade, the series has passed the
    minimum-data gate, the row is not volatile, and neither its slope
    nor its threshold is NaN. *)
Theorem trade_needs_judged_row {I : Type} (close : Series I float)
  (cfg : RegimeConfig) (labels : Series I string) (im : Intermediates)
  (i : nat) (l : string) (v t s th : float) :
  classify_regimes close (Some cfg) = Ok labels ->
  intermediates close cfg = Ok im ->
  Place im i v t s th ->
  iloc labels i = Some l ->
  allow_trade (decision_gate l) = true ->
  min_bars_needed cfg <= len close
  /\ volatile_at im cfg i = false
  /\ isnan s = false /\ isnan th = false.
Proof.
  intros H Him Hp Hl Hallow.
  rewrite (classify_row _ _ _ _ _ _ _ _ _ H Him Hp) in Hl.
  injection Hl as <-.
  destruct (place_masks _ cfg _ _ _ _ _ Hp) as (-> & _).
  destruct (Z.ltb_spec (len close) (min_bars_needed cfg)) as [Hg|Hg];
    [discriminate Hallow|].
  split; [assumption|].
  apply decision_gate_allows in Hallow.
  destruct (point_label_cases cfg v t s th) as (_ & _ & _ & _ & Lt & Lr & _).
  assert (Hm : (t * vol_mult_high cfg <? v)%float = false
               /\ ((th <? abs s)%float = true \/ (abs s <=? th)%float = true)).
  { destruct Hallow as [E|E]; [apply Lt in E|apply Lr in E];
      apply andb_true_iff in E; destruct E as [E1 E2];
      apply negb_true_iff in E1; auto. }
  destruct Hm as [Hnv Hcmp]. split; [assumption|].
  split.
  - destruct (isnan s) eqn:E; [|reflexivity].
    destruct (nan_slope_comparisons s th) as [A B]; [now left|].
    destruct Hcmp; congruence.
  - destruct (isnan th) eqn:E; [|reflexivity].
    destruct (nan_slope_comparisons s th) as [A B]; [now right|].
    destruct Hcmp; congruence.
Qed.

Lemma trade_needs_judged_row_witness :
  min_bars_needed (small_config 1) <= len (bars [1; 3; 6; 10; 15]%float)
  /\ isnan 5%float = false /\ isnan 1%float = false.
Proof.
  edestruct (@trade_needs_judged_row nat)
    with (close := bars [1; 3; 6; 10; 15]%float) (cfg := small_config 1)
         (labels := mkSeries [0; 1; 2; 3; 4]%nat
                      [UNCERTAIN; TREND; TREND; TREND; TREND])
         (i := 4%nat) (l := TREND) (s := 5%float) (th := 1%float)
    as (A & _ & B & C).
  - vm_compute. reflexivity.
  - vm_compute. reflexivity.
  - constructor; vm_compute; reflexivity.
  - reflexivity.
  - reflexivity.
  - exact (conj A (conj B C)).
Defined.

(** * A fixed threshold, raised *)

Lemma SFcompare_le_lt_trans (a b c : spec_float) :
  (SFcompare a b = Some Lt \/ SFcompare a b = Some Eq) ->
  SFcompare b c = Some Lt -> SFcompare a c = Some Lt.
Proof.
  destruct a as [[]|[]| |[] ma ea], b as [[]|[]| |[] mb eb],
    c as [[]|[]| |[] mc ec]; simpl; intros [H1|H1] H2;
    try discriminate; try reflexivity.
  all: revert H1 H2;
    change (Pos.compare_cont Eq ?x ?y) with (Pos.compare x y);
    destruct (Z.compare_spec ea eb), (Z.compare_spec eb ec),
      (Z.compare_spec ea ec); try lia; try discriminate; try reflexivity;
    destruct (Pos.compare_spec ma mb), (Pos.compare_spec mb mc),
      (Pos.compare_spec ma mc); simpl;
    try lia; try discriminate; try reflexivity.
Qed.

Lemma SFcompare_lt_le_trans (a b c : spec_float) :
  SFcompare a b = Some Lt ->
  (SFcompare b c = Some Lt \/ SFcompare b c = Some Eq) ->
  SFcompare a c = Some Lt.
Proof.
  destruct a as [[]|[]| |[] ma ea], b as [[]|[]| |[] mb eb],
    c as [[]|[]| |[] mc ec]; simpl; intros H1 [H2|H2];
    try discriminate; try reflexivity.
  all: revert H1 H2;
    change (Pos.compare_cont Eq ?x ?y) with (Pos.compare x y);
    destruct (Z.compare_spec ea eb), (Z.compare_spec eb ec),
      (Z.compare_spec ea ec); try lia; try discriminate; try reflexivity;
    destruct (Pos.compare_spec ma mb), (Pos.compare_spec mb mc),
      (Pos.compare_spec ma mc); simpl;
    try lia; try discriminate; try reflexivity.
Qed.

Lemma SFcompare_le_le_trans (a b c : spec_float) :
  (SFcompare a b = Some Lt \/ SFcompare a b = Some Eq) ->
  (SFcompare b c = Some Lt \/ SFcompare b c = Some Eq) ->
  (SFcompare a c = Some Lt \/ SFcompare a c = Some Eq).
Proof.
  destruct a as [[]|[]| |[] ma ea], b as [[]|[]| |[] mb eb],
    c as [[]|[]| |[] mc ec]; simpl; intros [H1|H1] [H2|H2];
    try discriminate; auto.
  all: revert H1 H2;
    change (Pos.compare_cont Eq ?x ?y) with (Pos.compare x y);
    destruct (Z.compare_spec ea eb), (Z.compare_spec eb ec),
      (Z.compare_spec ea ec); try lia; try discriminate; auto;
    destruct (Pos.compare_spec ma mb), (Pos.compare_spec mb mc),
      (Pos.compare_spec ma mc); simpl;
    try lia; try discriminate; auto.
Qed.

Lemma SFleb_cases (a b : spec_float) :
  SFleb a b = true -> SFcompare a b = Some Lt \/ SFcompare a b = Some Eq.
Proof.
  unfold SFleb. destruct (SFcompare a b) as [[]|]; auto; discriminate.
Qed.

Lemma SFltb_case (a b : spec_float) :
  SFltb a b = true -> SFcompare a b = Some Lt.
Proof.
  unfold SFltb. destruct (SFcompare a b) as [[]|]; auto; discriminate.
Qed.

Lemma le_lt_trans (a b c : float) :
  (a <=? b)%float = true -> (b <? c)%float = true -> (a <? c)%float = true.
Proof.
  rewrite leb_spec, !ltb_spec. intros H1 H2.
  unfold SFltb at 1.
  now rewrite (SFcompare_le_lt_trans _ _ _ (SFleb_cases _ _ H1)
                 (SFltb_case _ _ H2)).
Qed.

Lemma lt_le_trans (a b c : float) :
  (a <? b)%float = true -> (b <=? c)%float = true -> (a <? c)%float = true.
Proof.
  rewrite leb_spec, !ltb_spec. intros H1 H2.
  unfold SFltb at 1.
  now rewrite (SFcompare_lt_le_trans _ _ _ (SFltb_case _ _ H1)
                 (SFleb_cases _ _ H2)).
Qed.

Lemma le_le_trans (a b c : float) :
  (a <=? b)%float = true -> (b <=? c)%float = true -> (a <=? c)%float = true.
Proof.
  rewrite !leb_spec. intros H1 H2. unfold SFleb at 1.
  now destruct (SFcompare_le_le_trans _ _ _ (SFleb_cases _ _ H1)
                  (SFleb_cases _ _ H2)) as [-> | ->].
Qed.

Lemma fixed_threshold_at {I : Type} (close : Series I float)
  (cfg : RegimeConfig) (im : Intermediates) (i : nat) (th : float) :
  intermediates close cfg = Ok im ->
  (0 <? slope_threshold cfg)%float = true ->
  iloc (i_threshold im) i = Some th ->
  th = slope_threshold cfg.
Proof.
  intros Him Hpos Hth.
  destruct (intermediates_inv _ _ _ Him) as (_ & _ & _ & Eth).
  unfold threshold_series in Eth. rewrite (gt_not_le _ _ Hpos) in Eth.
  injection Eth as Eth. rewrite <- Eth in Hth.
  unfold iloc in Hth. simpl in Hth. rewrite nth_error_map in Hth.
  destruct (nth_error (values close) i); [|discriminate].
  now injection Hth as <-.
Qed.

(** X15.  Raising a fixed positive [slope_threshold] only moves rows
    from TREND to RANGE: a row that is TREND under the larger threshold
    is TREND under the smaller one, and a row that is RANGE under the
    smaller threshold is RANGE under the larger one. *)
Theorem larger_threshold_fewer_trends {I : Type} (close : Series I float)
  (cfg : RegimeConfig) (th1 th2 : float)
  (labels1 labels2 : Series I string) (i : nat) :
  (0 <? th1)%float = true -> (th1 <=? th2)%float = true ->
  classify_regimes close (Some (with_slope_threshold cfg th1)) = Ok labels1 ->
  classify_regimes close (Some (with_slope_threshold cfg th2)) = Ok labels2 ->
  (iloc labels2 i = Some TREND -> iloc labels1 i = Some TREND)
  /\ (iloc labels1 i = Some RANGE -> iloc labels2 i = Some RANGE).
Proof.
  intros Hpos Hle H1 H2.
  pose proof (lt_le_trans _ _ _ Hpos Hle) as Hpos2.
  destruct (classify_regimes_Ok_inv _ _ _ H1) as [im1 Him1].
  destruct (classify_regimes_Ok_inv _ _ _ H2) as [im2 Him2].
  destruct (Nat.ltb_spec i (List.length (values close))) as [Hi|Hi].
  - destruct (place_exists _ _ _ i Him1 Hi) as (v & t & s & x1 & Hp1).
    destruct (place_exists _ _ _ i Him2 Hi) as (v' & t' & s' & x2 & Hp2).
    destruct (intermediates_Ok close cfg) as [im Him].
    { destruct (intermediates_inv _ _ _ Him1) as (Hv & _).
      now apply rolling_Ok in Hv. }
    { destruct (intermediates_inv _ _ _ Him1) as (_ & Ht & _).
      now apply rolling_Ok in Ht. }
    destruct (intermediates_with_threshold _ _ _ _ _ Him Him1)
      as (Ev1 & Et1 & Es1).
    destruct (intermediates_with_threshold _ _ _ _ _ Him Him2)
      as (Ev2 & Et2 & Es2).
    pose proof Hp1 as [Hv1 Ht1 Hs1 Hx1]. pose proof Hp2 as [Hv2 Ht2 Hs2 Hx2].
    rewrite Ev1 in Hv1. rewrite Et1 in Ht1. rewrite Es1 in Hs1.
    rewrite Ev2 in Hv2. rewrite Et2 in Ht2. rewrite Es2 in Hs2.
    assert (v' = v) by congruence. assert (t' = t) by congruence.
    assert (s' = s) by congruence. subst v' t' s'.
    apply (fixed_threshold_at _ _ _ _ _ Him1 Hpos) in Hx1.
    apply (fixed_threshold_at _ _ _ _ _ Him2 Hpos2) in Hx2.
    cbn [with_slope_threshold slope_threshold] in Hx1, Hx2. subst x1 x2.
    rewrite (classify_row _ _ _ _ _ _ _ _ _ H1 Him1 Hp1).
    rewrite (classify_row _ _ _ _ _ _ _ _ _ H2 Him2 Hp2).
    change (min_bars_needed (with_slope_threshold cfg th1))
      with (min_bars_needed cfg).
    change (min_bars_needed (with_slope_threshold cfg th2))
      with (min_bars_needed cfg).
    destruct (len close <? min_bars_needed cfg); [split; discriminate|].
    destruct (point_label_cases (with_slope_threshold cfg th1) v t s th1)
      as (_ & _ & _ & _ & T1 & R1 & _).
    destruct (point_label_cases (with_slope_threshold cfg th2) v t s th2)
      as (_ & _ & _ & _ & T2 & R2 & _).
    cbn [with_slope_threshold vol_mult_high] in T1, R1, T2, R2.
    split; intros E; injection E as E; f_equal.
    + apply T2 in E. apply T1. apply andb_true_iff in E.
      destruct E as [E1 E2]. rewrite E1. simpl.
      exact (le_lt_trans _ _ _ Hle E2).
    + apply R1 in E. apply R2. apply andb_true_iff in E.
      destruct E as [E1 E2]. rewrite E1. simpl.
      exact (le_le_trans _ _ _ E2 Hle).
  - rewrite (classify_row_outside _ _ _ _ H1 Hi).
    rewrite (classify_row_outside _ _ _ _ H2 Hi). split; discriminate.
Qed.

Lemma larger_threshold_fewer_trends_witness :
  (iloc (mkSeries [0; 1; 2; 3; 4]%nat [UNCERTAIN; RANGE; RANGE; TREND; TREND])
        3 = Some TREND ->
   iloc (mkSeries [0; 1; 2; 3; 4]%nat [UNCERTAIN; TREND; TREND; TREND; TREND])
        3 = Some TREND)
  /\ (iloc (mkSeries [0; 1; 2; 3; 4]%nat
              [UNCERTAIN; TREND; TREND; TREND; TREND]) 3 = Some RANGE ->
      iloc (mkSeries [0; 1; 2; 3; 4]%nat
              [UNCERTAIN; RANGE; RANGE; TREND; TREND]) 3 = Some RANGE).
Proof.
  apply (larger_threshold_fewer_trends (bars [1; 3; 6; 10; 15]%float)
           (small_config 0) 1%float 3%float).
  - reflexivity.
  - reflexivity.
  - vm_compute. reflexivity.
  - vm_compute. reflexivity.
Defined.

(** * Rows that are judged *)

Lemma SFcompare_Gt_swap (x y : spec_float) :
  SFcompare x y = Some Gt -> SFcompare y x = Some Lt.
Proof.
  destruct x as [[]|[]| |[] mx ex], y as [[]|[]| |[] my ey];
    simpl; try congruence.
  all: change (Pos.compare_cont Eq mx my) with (Pos.compare mx my);
    change (Pos.compare_cont Eq my mx) with (Pos.compare my mx);
    rewrite (Z.compare_antisym ex ey), (Pos.compare_antisym mx my);
    destruct (Z.compare ex ey); simpl; try congruence;
    destruct (Pos.compare mx my); simpl; congruence.
Qed.

Lemma not_nan_spec (x : float) : isnan x = false -> Prim2SF x <> S754_nan.
Proof.
  unfold isnan. rewrite eqb_spec. intros H E. rewrite E in H. discriminate H.
Qed.

Lemma abs_not_nan (x : float) : isnan x = false -> isnan (abs x) = false.
Proof.
  intros H. apply not_nan_spec in H.
  destruct (isnan (abs x)) eqn:E; [|reflexivity].
  apply isnan_spec in E. rewrite abs_spec in E.
  destruct (Prim2SF x); try discriminate E. contradiction.
Qed.

(** Two numbers that are not NaN are comparable. *)
Lemma gt_or_le (a b : float) :
  isnan a = false -> isnan b = false ->
  (b <? a)%float = true \/ (a <=? b)%float = true.
Proof.
  intros Ha Hb. apply not_nan_spec in Ha, Hb.
  rewrite ltb_spec, leb_spec. unfold SFltb, SFleb.
  destruct (SFcompare (Prim2SF a) (Prim2SF b)) as [[]|] eqn:E; auto.
  - left. now rewrite (SFcompare_Gt_swap _ _ E).
  - exfalso. destruct (Prim2SF a) as [[]|[]| |[] ? ?],
      (Prim2SF b) as [[]|[]| |[] ? ?]; simpl in E; try discriminate E;
      congruence.
Qed.

(** X16.  Once the series has passed the minimum-data gate, a row whose
    slope and threshold are both defined is never left UNCERTAIN: it is
    VOLATILE, TREND or RANGE. *)
Theorem defined_row_is_judged {I : Type} (close : Series I float)
  (cfg : RegimeConfig) (labels : Series I string) (im : Intermediates)
  (i : nat) (v t s th : float) :
  classify_regimes close (Some cfg) = Ok labels ->
  intermediates close cfg = Ok im ->
  Place im i v t s th ->
  min_bars_needed cfg <= len close ->
  isnan s = false -> isnan th = false ->
  iloc labels i = Some VOLATILE \/ iloc labels i = Some TREND
  \/ iloc labels i = Some RANGE.
Proof.
  intros H Him Hp Hgate Hs Hth.
  rewrite (classify_row _ _ _ _ _ _ _ _ _ H Him Hp).
  destruct (Z.ltb_spec (len close) (min_bars_needed cfg)); [lia|].
  unfold point_label.
  destruct (t * vol_mult_high cfg <? v)%float; simpl.
  - auto.
  - destruct (abs s <=? th)%float eqn:Ele; [auto|].
    destruct (gt_or_le (abs s) th (abs_not_nan s Hs) Hth) as [-> | E];
      [auto | congruence].
Qed.

Lemma defined_row_is_judged_witness :
  iloc (mkSeries [0; 1; 2; 3; 4]%nat [UNCERTAIN; TREND; TREND; TREND; TREND])
       4 = Some VOLATILE
  \/ iloc (mkSeries [0; 1; 2; 3; 4]%nat
             [UNCERTAIN; TREND; TREND; TREND; TREND]) 4 = Some TREND
  \/ iloc (mkSeries [0; 1; 2; 3; 4]%nat
             [UNCERTAIN; TREND; TREND; TREND; TREND]) 4 = Some RANGE.
Proof.
  eapply (@defined_row_is_judged nat (bars [1; 3; 6; 10; 15]%float)
            (small_config 1)) with (s := 5%float) (th := 1%float).
  - vm_compute. reflexivity.
  - vm_compute. reflexivity.
  - constructor; vm_compute; reflexivity.
  - vm_compute. discriminate.
  - reflexivity.
  - reflexivity.
Defined.

(** * The call without a configuration *)

(** X17.  Called without a configuration, [classify_regimes] uses the
    dataclass defaults and never raises.  The result keeps the index
    and the number of rows; a series of fewer than 121 rows is UNCERTAIN
    throughout; and in any series no row before row 119 is VOLATILE and
    no row before row 239 is TREND or RANGE. *)
Theorem default_call {I : Type} (close : Series I float) :
  exists labels,
    classify_regimes close None = Ok labels
    /\ index labels = index close
    /\ List.length (values labels) = List.length (values close)
    /\ (len close < 121 -> Forall (fun l => l = UNCERTAIN) (values labels))
    /\ forall i,
        ((i < 119)%nat -> iloc labels i <> Some VOLATILE)
        /\ ((i < 239)%nat ->
            iloc labels i <> Some TREND /\ iloc labels i <> Some RANGE).
Proof.
  change (classify_regimes close None)
    with (classify_regimes close (Some default_config)).
  destruct (intermediates_Ok close default_config) as [im Him];
    [simpl; lia|simpl; lia|].
  pose proof (classify_regimes_unfold _ _ _ Him) as Hu.
  assert (Hmin : min_bars_needed default_config = 121) by reflexivity.
  rewrite Hmin in Hu.
  destruct (classify_regimes close (Some default_config)) as [labels|e] eqn:H;
    [|destruct (len close <? 121); discriminate Hu].
  exists labels. split; [reflexivity|].
  destruct (classify_regimes_shape _ _ _ H) as (Hx & Hn & _).
  split; [assumption|]. split; [assumption|]. split.
  - intros Hshort. apply Z.ltb_lt in Hshort. rewrite Hshort in Hu.
    injection Hu as ->. unfold uncertain_labels. simpl.
    clear. induction (values close); simpl; constructor; auto.
  - intros i.
    destruct (Nat.ltb_spec i (List.length (values close))) as [Hi|Hi];
      [|rewrite (classify_row_outside _ _ _ _ H Hi);
        repeat split; discriminate].
    destruct (place_exists _ default_config _ i Him Hi)
      as (v & t & s & th & Hp).
    rewrite (classify_row _ _ _ _ _ _ _ _ _ H Him Hp).
    pose proof Hp as [_ Ht _ Hth].
    rewrite Hmin.
    destruct (len close <? 121); [repeat split; discriminate|].
    split.
    + intros Hlow.
      rewrite (typical_vol_low close default_config im i Him Hi) in Ht
        by (simpl; lia).
      injection Ht as <-. intros E. injection E as E.
      now apply point_label_nan_baseline in E.
    + intros Hlow.
      rewrite (auto_threshold_low close default_config im i Him) in Hth
        by (try reflexivity; simpl; lia).
      injection Hth as <-.
      destruct (point_label_nan_slope default_config v t s nan)
        as [Nt Nr]; [now right|].
      split; intros E; injection E as E; auto.
Qed.
